(** * finOpen (OpenBlind backend): authentication, sessions and RBAC guards

    A shallow embedding of [src/middleware/auth.js],
    [src/middleware/authorization.js], the [/login] and [/logout] handlers of
    the auth router and [toggleUserStatus] of the users controller, followed
    by the properties the specification states about them.

    Conventions of the embedding:
    - instants ([new Date()], [Date.now()]) are milliseconds since the epoch,
      in [Z]; one request reads one instant, [now env];
    - PostgreSQL is the pair of tables [users] and [sessions] of [State];
      a Sequelize call either runs on them or, when the environment of the
      request says the database is unreachable, throws;
    - the process-wide [permissionsCache] (a JS [Map]) is a [gmap];
    - [jsonwebtoken] and the [bcryptjs] digest are parameters of the
      development: nothing below depends on how they compute. *)

From Stdlib Require Import ZArith String List Bool Lia.
From stdpp Require Import gmap strings list.

Local Open Scope Z_scope.
Local Open Scope string_scope.

(** ** JavaScript strings *)

(** [strip_prefix p s] is [Some r] when [s = p ++ r]. *)
Fixpoint strip_prefix (p s : string) : option string :=
  match p with
  | EmptyString => Some s
  | String a p' =>
      match s with
      | EmptyString => None
      | String b s' => if Ascii.eqb a b then strip_prefix p' s' else None
      end
  end.

(** [String.prototype.replace] with a string pattern: the first occurrence
    of [pat] is replaced, the rest of the string is kept. *)
Fixpoint js_replace (pat rep s : string) : string :=
  match strip_prefix pat s with
  | Some rest => rep +:+ rest
  | None =>
      match s with
      | EmptyString => EmptyString
      | String c s' => String c (js_replace pat rep s')
      end
  end.

(** A string of the embedding is the UTF-8 encoding of the JavaScript
    string it stands for. [s.length] counts UTF-16 code units: one for
    every code point of one, two or three bytes, two for a code point of
    four bytes (a surrogate pair), none for a continuation byte. *)
Definition utf16_units (c : Ascii.ascii) : nat :=
  let n := Ascii.nat_of_ascii c in
  if Nat.ltb n 128 then 1%nat
  else if Nat.ltb n 192 then 0%nat
  else if Nat.ltb n 240 then 1%nat
  else 2%nat.

Fixpoint js_length (s : string) : nat :=
  match s with
  | EmptyString => 0%nat
  | String c s' => (utf16_units c + js_length s')%nat
  end.

(** Truthiness of a possibly undefined string: [undefined] and [''] are
    falsy. *)
Definition truthy_string (o : option string) : option string :=
  match o with
  | Some EmptyString => None
  | Some s => Some s
  | None => None
  end.

(** ** Data model *)

(** What [bcrypt.hash] returns: the 60-character string
    [$2a$<rounds>$<salt><digest>], kept as its three fields. *)
Record BcryptHash := mkHash {
  hrounds : nat;
  hsalt : string;
  hdigest : string
}.

Record Permission := mkPermission {
  perm_id : string;
  perm_name : string;
  perm_resource : string;
  perm_action : string
}.

Record Role := mkRole {
  role_id : string;
  role_name : string;
  role_permissions : list Permission    (* association [permissions] *)
}.

Record User := mkUser {
  user_id : string;
  email : string;
  passwordHash : BcryptHash;
  role : string;
  isActive : bool;
  lastLogin : option Z;
  roles : list Role                     (* association [roles] *)
}.

Record UserSession := mkSession {
  sess_id : string;
  sess_userId : string;
  tokenHash : BcryptHash;
  ipAddress : string;
  userAgent : string;
  expiresAt : Z
}.

(** An entry of [permissionsCache]. *)
Record CacheEntry := mkEntry {
  permissions : list Permission;
  timestamp : Z
}.

Record State := mkState {
  users : list User;
  sessions : list UserSession;
  permissionsCache : gmap string CacheEntry;
  pg_queries : nat                      (* statements sent to PostgreSQL *)
}.

(** What a request finds around it: the clock, the salt [bcrypt.genSalt]
    draws, the uuid PostgreSQL generates for a new row, and whether
    PostgreSQL answers. *)
Record Env := mkEnv {
  now : Z;
  salt : string;
  uuid : string;
  pg_up : bool
}.

Record Request := mkRequest {
  authorization : option string;        (* req.header('Authorization') *)
  req_ip : string;
  req_userAgent : string;
  req_user : option User;
  req_session : option UserSession
}.

(** A middleware or handler either hands the request on ([next()]) or
    answers with a status and a message ([res.status(s).json({message})]). *)
Inductive Result :=
  | Next (req : Request)
  | Respond (status : Z) (message : string).

#[global] Instance BcryptHash_eq_dec : EqDecision BcryptHash.
Proof. solve_decision. Defined.
#[global] Instance Permission_eq_dec : EqDecision Permission.
Proof. solve_decision. Defined.

(** ** Exceptions and the state monad of a request *)

(** A thrown [Error]: its [name], its [message] and the [statusCode] that
    [createError] attaches. *)
Record Exn := mkExn {
  exn_name : string;
  exn_message : string;
  exn_statusCode : option Z
}.

Inductive outcome (A : Type) :=
  | Ok (a : A)
  | Throw (error : Exn).
Arguments Ok {A} a.
Arguments Throw {A} error.

Definition M (A : Type) : Type := State -> outcome A * State.

Definition ret {A} (a : A) : M A := fun st => (Ok a, st).
Definition throw {A} (error : Exn) : M A := fun st => (Throw error, st).
Definition bind {A B} (m : M A) (k : A -> M B) : M B :=
  fun st =>
    match m st with
    | (Ok a, st') => k a st'
    | (Throw e, st') => (Throw e, st')
    end.
Definition try_catch {A} (m : M A) (handler : Exn -> M A) : M A :=
  fun st =>
    match m st with
    | (Ok a, st') => (Ok a, st')
    | (Throw e, st') => handler e st'
    end.
Definition lift {A} (o : outcome A) : M A := fun st => (o, st).

Notation "'let*' x ':=' m 'in' k" := (bind m (fun x => k))
  (at level 10, x pattern, m at level 100, k at level 200).

(** ** PostgreSQL through Sequelize *)

Definition set_users (us : list User) (st : State) : State :=
  mkState us (sessions st) (permissionsCache st) (pg_queries st).
Definition set_sessions (ss : list UserSession) (st : State) : State :=
  mkState (users st) ss (permissionsCache st) (pg_queries st).
Definition set_cache (c : gmap string CacheEntry) (st : State) : State :=
  mkState (users st) (sessions st) c (pg_queries st).
Definition tick (st : State) : State :=
  mkState (users st) (sessions st) (permissionsCache st) (S (pg_queries st)).

Definition connection_error : Exn :=
  mkExn "SequelizeConnectionError" "connection refused" None.

(** One statement: it is sent, and runs unless PostgreSQL is unreachable. *)
Definition pg {A} (env : Env) (run : State -> A * State) : M A :=
  fun st =>
    if pg_up env then let (a, st') := run (tick st) in (Ok a, st')
    else (Throw connection_error, tick st).

(** The row of [users] joined to a session by the [include] of
    [authenticate]: [user.id = session.userId], restricted by
    [where: {id: userId, isActive: true}]. *)
Definition joined_user (userId : string) (us : list User) (s : UserSession)
  : option User :=
  find (fun u => String.eqb (user_id u) (sess_userId s)
                 && String.eqb (user_id u) userId
                 && isActive u) us.

(** [UserSession.findOne({where: {tokenHash, expiresAt: {[Op.gt]: now}},
    include: [{model: User, as: 'user', where: {id, isActive: true}}]})]:
    the first row that passes the [where] and has a joined user. *)
Fixpoint find_session (h : BcryptHash) (t : Z) (userId : string)
    (us : list User) (rows : list UserSession)
  : option (UserSession * User) :=
  match rows with
  | [] => None
  | s :: rows' =>
      if bool_decide (tokenHash s = h) && Z.ltb t (expiresAt s) then
        match joined_user userId us s with
        | Some u => Some (s, u)
        | None => find_session h t userId us rows'
        end
      else find_session h t userId us rows'
  end.

Definition UserSession_findOne (env : Env) (h : BcryptHash) (t : Z)
    (userId : string) : M (option (UserSession * User)) :=
  pg env (fun st => (find_session h t userId (users st) (sessions st), st)).

(** [UserSession.create(row)]. *)
Definition UserSession_create (env : Env) (row : UserSession)
  : M UserSession :=
  pg env (fun st => (row, set_sessions (sessions st ++ [row])%list st)).

(** [UserSession.destroy({where})]: the rows that pass [where] go, their
    number is returned. *)
Definition UserSession_destroy (env : Env) (where_ : UserSession -> bool)
  : M nat :=
  pg env (fun st =>
    (length (List.filter where_ (sessions st)),
     set_sessions (List.filter (fun s => negb (where_ s)) (sessions st)) st)).

(** [User.update(fields, {where: {id}})], for the two fields the core
    writes. *)
Definition touch_lastLogin (t : Z) (u : User) : User :=
  mkUser (user_id u) (email u) (passwordHash u) (role u) (isActive u)
         (Some t) (roles u).
Definition put_isActive (b : bool) (u : User) : User :=
  mkUser (user_id u) (email u) (passwordHash u) (role u) b
         (lastLogin u) (roles u).

Definition update_where (id : string) (f : User -> User) (us : list User)
  : list User :=
  map (fun u => if String.eqb (user_id u) id then f u else u) us.

Definition User_update (env : Env) (f : User -> User) (id : string)
  : M nat :=
  pg env (fun st =>
    (length (List.filter (fun u => String.eqb (user_id u) id) (users st)),
     set_users (update_where id f (users st)) st)).

(** [User.findByPk(id)], with whatever it includes. *)
Definition User_findByPk (env : Env) (id : string) : M (option User) :=
  pg env (fun st =>
    (find (fun u => String.eqb (user_id u) id) (users st), st)).

(** [User.findOne({where: {email, isActive: true}})]. *)
Definition User_findOne_active (env : Env) (mail : string)
  : M (option User) :=
  pg env (fun st =>
    (find (fun u => String.eqb (email u) mail && isActive u) (users st), st)).

(** ** Requests *)

Definition attach (req : Request) (u : User) (s : UserSession) : Request :=
  mkRequest (authorization req) (req_ip req) (req_userAgent req)
            (Some u) (Some s).

(** [req.header('Authorization')?.replace('Bearer ', '')], and whether the
    result is truthy. *)
Definition bearer_token (req : Request) : option string :=
  truthy_string
    (match authorization req with
     | Some h => Some (js_replace "Bearer " "" h)
     | None => None
     end).

Definition createError (message : string) (statusCode : Z) : Exn :=
  mkExn "Error" message (Some statusCode).

(** The claims [generateToken] signs and [jwt.verify] gives back. *)
Record JwtPayload := mkPayload {
  userId : string;
  jwt_email : string;
  jwt_role : string
}.

(** The body of [POST /login] after [validateLogin]. *)
Record LoginBody := mkBody {
  body_email : string;
  body_password : string
}.

(** The [data] of a successful login response. *)
Record LoginData := mkData {
  data_user_id : string;
  data_user_email : string;
  data_user_role : string;
  data_token : string;
  data_expiresAt : Z
}.

Definition HOURS_24 : Z := 24 * 60 * 60 * 1000.

Section Auth.

(** [jwt.sign(payload, JWT_SECRET, {expiresIn, issuer, audience})] at an
    instant, and [jwt.verify(token, JWT_SECRET)] at an instant. *)
Variable jwt_sign : JwtPayload -> Z -> string.
Variable jwt_verify : string -> Z -> outcome JwtPayload.

(** The Blowfish digest of bcrypt for a cost, a salt and a text. *)
Variable bcrypt_digest : nat -> string -> string -> string.

(** Joi's verdict on a login body: the first error message, if any. *)
Variable validateLogin : LoginBody -> option string.

(** [d.setHours(d.getHours() + 24)] on an instant: the instant at which
    the local clock of the server reads 24 hours more. It is 24 hours later
    unless the offset of the zone changes in between (23 or 25 hours across
    a daylight-saving change). *)
Variable plus_24h_local : Z -> Z.

(** [bcrypt.hash(s, rounds)]: a salt is drawn, the hash carries it. *)
Definition bcrypt_hash (rounds : nat) (drawn : string) (s : string)
  : BcryptHash :=
  mkHash rounds drawn (bcrypt_digest rounds drawn s).

(** [bcrypt.compare(s, hash)]: the digest is recomputed with the salt and
    the cost the hash carries. *)
Definition bcrypt_compare (s : string) (h : BcryptHash) : bool :=
  String.eqb (bcrypt_digest (hrounds h) (hsalt h) s) (hdigest h).

(** *** src/middleware/auth.js *)

Definition authenticate (env : Env) (req : Request) : M Result :=
  try_catch
    (match bearer_token req with
     | None => ret (Respond 401 "Access token is required")
     | Some token =>
         let* decoded := lift (jwt_verify token (now env)) in
         let* session :=
           UserSession_findOne env (bcrypt_hash 10 (salt env) token)
                               (now env) (userId decoded) in
         match session with
         | None => ret (Respond 401 "Invalid or expired token")
         | Some (s, u) =>
             let* _ := User_update env (touch_lastLogin (now env))
                                   (userId decoded) in
             ret (Next (attach req u s))
         end
     end)
    (fun error =>
       if String.eqb (exn_name error) "JsonWebTokenError"
       then ret (Respond 401 "Invalid token")
       else if String.eqb (exn_name error) "TokenExpiredError"
       then ret (Respond 401 "Token expired")
       else ret (Respond 500 "Authentication failed")).

Definition optionalAuth (env : Env) (req : Request) : M Result :=
  try_catch
    (match bearer_token req with
     | None => ret (Next req)
     | Some token =>
         let* decoded := lift (jwt_verify token (now env)) in
         let* session :=
           UserSession_findOne env (bcrypt_hash 10 (salt env) token)
                               (now env) (userId decoded) in
         match session with
         | Some (s, u) => ret (Next (attach req u s))
         | None => ret (Next req)
         end
     end)
    (fun _ => ret (Next req)).

Definition generateToken (env : Env) (user : User) : string :=
  jwt_sign (mkPayload (user_id user) (email user) (role user)) (now env).

(** [expiresAt = new Date(); expiresAt.setHours(expiresAt.getHours() + 24)]. *)
Definition createUserSession (env : Env) (user : User) (token : string)
    (req : Request) : M UserSession :=
  let tokenHash := bcrypt_hash 10 (salt env) token in
  let expiresAt := plus_24h_local (now env) in
  UserSession_create env
    (mkSession (uuid env) (user_id user) tokenHash (req_ip req)
               (req_userAgent req) expiresAt).

Definition destroyUserSession (env : Env) (sessionId : string) : M nat :=
  UserSession_destroy env (fun s => String.eqb (sess_id s) sessionId).

Definition destroyAllUserSessions (env : Env) (id : string) : M nat :=
  UserSession_destroy env (fun s => String.eqb (sess_userId s) id).

(** [expiresAt: {[Op.lt]: new Date()}]; the [catch] logs and rethrows. *)
Definition cleanExpiredSessions (env : Env) : M nat :=
  try_catch
    (UserSession_destroy env (fun s => Z.ltb (expiresAt s) (now env)))
    (fun error => throw error).

(** *** The auth router: POST /login and POST /logout *)

Definition login (env : Env) (body : LoginBody) (req : Request)
  : M LoginData :=
  match validateLogin body with
  | Some message => throw (createError message 400)
  | None =>
      let* found := User_findOne_active env (body_email body) in
      match found with
      | None => throw (createError "Invalid credentials" 401)
      | Some user =>
          if negb (bcrypt_compare (body_password body) (passwordHash user))
          then throw (createError "Invalid credentials" 401)
          else
            let token := generateToken env user in
            let* session := createUserSession env user token req in
            let* _ := User_update env (touch_lastLogin (now env))
                                  (user_id user) in
            ret (mkData (user_id user) (email user) (role user) token
                        (expiresAt session))
      end
  end.

(** [router.post('/logout', authenticate, ...)]: the handler runs on the
    request [authenticate] handed on, and destroys [req.session.id]. *)
Definition logout (env : Env) (req : Request) : M Result :=
  let* r := authenticate env req in
  match r with
  | Next req' =>
      match req_session req' with
      | Some s =>
          let* _ := destroyUserSession env (sess_id s) in
          ret (Respond 200 "Logout successful")
      | None => throw (mkExn "TypeError" "req.session is undefined" None)
      end
  | Respond status message => ret (Respond status message)
  end.

End Auth.

(** ** src/middleware/authorization.js *)

Definition CACHE_TTL : Z := 5 * 60 * 1000.

Definition cacheKey (id : string) : string := "user_permissions_" +:+ id.

Definition cache_get (key : string) : M (option CacheEntry) :=
  fun st => (Ok (permissionsCache st !! key), st).

Definition cache_set (key : string) (e : CacheEntry) : M unit :=
  fun st => (Ok tt, set_cache (<[key := e]> (permissionsCache st)) st).

(** The body of the inner [forEach]: [permission] is pushed (as a fresh
    object with its four fields) unless one with the same [id] is there. *)
Definition push_permission (acc : list Permission) (permission : Permission)
  : list Permission :=
  match find (fun p => String.eqb (perm_id p) (perm_id permission)) acc with
  | Some _ => acc
  | None =>
      (acc ++ [mkPermission (perm_id permission) (perm_name permission)
                            (perm_resource permission)
                            (perm_action permission)])%list
  end.

(** [user.roles.forEach(role => role.permissions.forEach(...))]. *)
Definition collect_permissions (rs : list Role) : list Permission :=
  fold_left (fun acc r => fold_left push_permission (role_permissions r) acc)
            rs [].

Definition getUserPermissions (env : Env) (id : string)
  : M (list Permission) :=
  let miss : M (list Permission) :=
    try_catch
      (let* user := User_findByPk env id in
       match user with
       | None => ret []
       | Some user =>
           let permissions := collect_permissions (roles user) in
           let* _ := cache_set (cacheKey id)
                               (mkEntry permissions (now env)) in
           ret permissions
       end)
      (fun _ => ret []) in
  let* cached := cache_get (cacheKey id) in
  match cached with
  | Some c =>
      if Z.ltb (now env - timestamp c) CACHE_TTL then ret (permissions c)
      else miss
  | None => miss
  end.

(** An entry of [requiredPermissions], by what [typeof] says of it: a
    string, an object with whatever [resource] and [action] it has, [null]
    (whose [typeof] is ['object'] and whose fields cannot be read), or
    anything else. *)
Inductive Required :=
  | ReqString (name : string)
  | ReqObject (resource action : option string)
  | ReqNull
  | ReqOther.

Definition type_error : Exn :=
  mkExn "TypeError" "Cannot read properties of null" None.

(** The callback of [userPermissions.some]. *)
Definition required_matches (required : Required) (permission : Permission)
  : outcome bool :=
  match required with
  | ReqString name => Ok (String.eqb (perm_name permission) name)
  | ReqObject resource action =>
      Ok (bool_decide (Some (perm_resource permission) = resource)
          && bool_decide (Some (perm_action permission) = action))
  | ReqNull => Throw type_error
  | ReqOther => Ok false
  end.

(** [Array.prototype.some] and [every] with a callback that may throw. *)
Fixpoint js_some {A} (f : A -> outcome bool) (l : list A) : outcome bool :=
  match l with
  | [] => Ok false
  | x :: l' =>
      match f x with
      | Ok true => Ok true
      | Ok false => js_some f l'
      | Throw e => Throw e
      end
  end.

Fixpoint js_every {A} (f : A -> outcome bool) (l : list A) : outcome bool :=
  match l with
  | [] => Ok true
  | x :: l' =>
      match f x with
      | Ok true => js_every f l'
      | Ok false => Ok false
      | Throw e => Throw e
      end
  end.

Definition authorize (requiredPermissions : list Required) (env : Env)
    (req : Request) : M Result :=
  try_catch
    (match req_user req with
     | None => ret (Respond 401 "Authentication required")
     | Some user =>
         if String.eqb (role user) "admin" then ret (Next req)
         else
           let* userPermissions := getUserPermissions env (user_id user) in
           let* hasPermission :=
             lift (js_every
                     (fun required =>
                        js_some (required_matches required) userPermissions)
                     requiredPermissions) in
           if negb hasPermission
           then ret (Respond 403 "Insufficient permissions")
           else ret (Next req)
     end)
    (fun _ => ret (Respond 500 "Authorization failed")).

(** The argument of [requireRole]: an array of role names, or one name. *)
Inductive RolesArg :=
  | RolesArray (rs : list string)
  | RoleSingle (r : string).

Definition requireRole (roles : RolesArg) (req : Request) : Result :=
  let allowedRoles :=
    match roles with
    | RolesArray rs => rs
    | RoleSingle r => [r]
    end in
  match req_user req with
  | None => Respond 401 "Authentication required"
  | Some user =>
      if negb (existsb (String.eqb (role user)) allowedRoles)
      then Respond 403 "Insufficient role permissions"
      else Next req
  end.

(** What [getResourceUserId] may resolve to. Only a string can be [===] to
    [req.user.id]. *)
Inductive JsValue :=
  | JsUndefined
  | JsNull
  | JsString (s : string)
  | JsObject.

Definition strict_eq_string (v : JsValue) (s : string) : bool :=
  match v with
  | JsString s' => String.eqb s' s
  | _ => false
  end.

Definition requireOwnership (getResourceUserId : Request -> M JsValue)
    (req : Request) : M Result :=
  try_catch
    (match req_user req with
     | None => ret (Respond 401 "Authentication required")
     | Some user =>
         if String.eqb (role user) "admin" then ret (Next req)
         else
           let* resourceUserId := getResourceUserId req in
           if negb (strict_eq_string resourceUserId (user_id user))
           then ret (Respond 403
                  "Access denied: You can only access your own resources")
           else ret (Next req)
     end)
    (fun _ => ret (Respond 500 "Access verification failed")).

Definition hasPermission (env : Env) (id resource action : string) : M bool :=
  try_catch
    (let* permissions := getUserPermissions env id in
     ret (existsb (fun permission =>
                     String.eqb (perm_resource permission) resource
                     && String.eqb (perm_action permission) action)
                  permissions))
    (fun _ => ret false).

Definition clearPermissionsCache (id : option string) : M unit :=
  fun st =>
    match truthy_string id with
    | Some i => (Ok tt, set_cache (delete (cacheKey i) (permissionsCache st)) st)
    | None => (Ok tt, set_cache ∅ st)
    end.

(** ** The users controller: PATCH /:id/toggle-status *)

Definition toggleUserStatus (env : Env) (req : Request) (id : string)
  : M Result :=
  let* found := User_findByPk env id in
  match found with
  | None => throw (createError "User not found" 404)
  | Some user =>
      match req_user req with
      | None => throw (mkExn "TypeError" "req.user is undefined" None)
      | Some actor =>
          if String.eqb (user_id actor) (user_id user)
          then throw (createError "You cannot deactivate your own account" 400)
          else
            let newStatus := negb (isActive user) in
            let* _ := User_update env (put_isActive newStatus) (user_id user) in
            ret (Respond 200
                   (if newStatus then "User activated successfully"
                    else "User deactivated successfully"))
      end
  end.

(** ** Notions the properties are stated with *)

(** The cache holds no entry for [id] that is still inside its TTL at
    [now env]: [getUserPermissions] has to resolve. *)
Definition cache_stale (env : Env) (id : string) (st : State) : Prop :=
  forall c, permissionsCache st !! cacheKey id = Some c ->
            CACHE_TTL <= now env - timestamp c.

(** An entry of the requirement list is present in a permission list. *)
Definition present (required : Required) (perms : list Permission) : Prop :=
  exists p, p ∈ perms /\
    match required with
    | ReqString name => perm_name p = name
    | ReqObject resource action =>
        Some (perm_resource p) = resource /\ Some (perm_action p) = action
    | ReqNull | ReqOther => False
    end.

(** The list [getUserPermissions] resolves to. *)
Definition resolved (env : Env) (id : string) (st : State) : list Permission :=
  match fst (getUserPermissions env id st) with
  | Ok perms => perms
  | Throw _ => []
  end.

(** The kinds of authentication failure the specification tells apart. *)
Inductive AuthenticationError :=
  | MissingToken
  | MalformedToken
  | InvalidSignature
  | ExpiredToken
  | SessionNotFound
  | SessionExpired
  | IdentityInactive
  | InvalidCredentials.

(** The specification's reading of a refusal: answers can be read as kinds
    of failure so that [answer] is of kind [k] and [other], the answer to a
    failure of another kind, is not. *)
Definition answer_names_kind (answer other : outcome Result)
    (k : AuthenticationError) : Prop :=
  exists kind_of : outcome Result -> AuthenticationError,
    kind_of answer = k /\ kind_of other <> k.

(** The specification's sweep: the rows left are those with
    [now < expiresAt], the number returned counts those with
    [expiresAt <= now]. *)
Definition spec_sweepExpired (env : Env) (st : State) : Prop :=
  exists n st',
    cleanExpiredSessions env st = (Ok n, st') /\
    (forall s, s ∈ sessions st' <-> s ∈ sessions st /\ now env < expiresAt s) /\
    n = length (List.filter (fun s => Z.leb (expiresAt s) (now env))
                            (sessions st)).

(** The specification's storage failure: the permission gate answers with
    a 500. *)
Definition spec_storage_unavailable (required : list Required) (env : Env)
    (req : Request) (st : State) : Prop :=
  exists message,
    fst (authorize required env req st) = Ok (Respond 500 message).

(** The specification's idempotence: of two resolutions in a row, the
    second returns what the first returned and sends no statement. *)
Definition spec_resolve_twice (env1 env2 : Env) (id : string) (st : State)
    : Prop :=
  let first := getUserPermissions env1 id st in
  let second := getUserPermissions env2 id (snd first) in
  fst second = fst first /\
  pg_queries (snd second) = pg_queries (snd first).

(** ** A small installation to run the code on *)

Module Demo.

(** A token codec that keeps the identity in the clear and never lets a
    token expire; a digest that spells out what it was given. *)
Definition jwt_sign (p : JwtPayload) (t : Z) : string :=
  "jwt." +:+ userId p.
Definition jwt_verify (tok : string) (t : Z) : outcome JwtPayload :=
  match strip_prefix "jwt." tok with
  | Some id => Ok (mkPayload id "" "")
  | None => Throw (mkExn "JsonWebTokenError" "jwt malformed" None)
  end.
Definition digest (rounds : nat) (drawn s : string) : string :=
  drawn +:+ "/" +:+ s.
Definition validate (body : LoginBody) : option string := None.

(** The local clock of a zone whose offset never changes. *)
Definition plus_24h (t : Z) : Z := t + HOURS_24.

Definition routes_read : Permission :=
  mkPermission "p-1" "routes.read" "routes" "read".
Definition routes_update : Permission :=
  mkPermission "p-2" "routes.update" "routes" "update".
Definition moderator : Role :=
  mkRole "r-1" "moderator" [routes_read; routes_update].
Definition editor : Role :=
  mkRole "r-2" "editor" [routes_update].

Definition alice : User :=
  mkUser "u-alice" "alice@example.org"
         (bcrypt_hash digest 12 "salt-0" "alice-secret")
         "moderator" true None [moderator; editor].
Definition root : User :=
  mkUser "u-root" "root@example.org"
         (bcrypt_hash digest 12 "salt-0" "root-secret")
         "admin" true None [].

Definition st0 : State := mkState [alice; root] [] ∅ 0.

Definition env_login : Env := mkEnv 1000 "salt-A" "sess-1" true.
Definition env_fresh : Env := mkEnv 2000 "salt-B" "sess-2" true.
Definition env_same : Env := mkEnv 2000 "salt-A" "sess-2" true.
Definition env_down : Env := mkEnv 2000 "salt-B" "sess-2" false.
Definition env_expiry : Env := mkEnv (1000 + HOURS_24) "salt-A" "sess-2" true.

Definition body : LoginBody := mkBody "alice@example.org" "alice-secret".
Definition anonymous : Request := mkRequest None "10.0.0.1" "curl" None None.
Definition token : string := "jwt.u-alice".
Definition bearer : Request :=
  mkRequest (Some ("Bearer " +:+ token)) "10.0.0.1" "curl" None None.
Definition as_alice : Request :=
  mkRequest None "10.0.0.1" "curl" (Some alice) None.
Definition as_root : Request :=
  mkRequest None "10.0.0.1" "curl" (Some root) None.

(** Alice has logged in; then her session is destroyed, or she is
    switched off by [root]. *)
Definition st_logged : State :=
  snd (login jwt_sign digest validate plus_24h env_login body anonymous st0).
Definition st_destroyed : State :=
  snd (destroyUserSession env_fresh "sess-1" st_logged).
Definition st_deactivated : State :=
  snd (toggleUserStatus env_fresh as_root "u-alice" st_logged).

Definition session1 : UserSession :=
  mkSession "sess-1" "u-alice" (bcrypt_hash digest 10 "salt-A" token)
            "10.0.0.1" "curl" (1000 + HOURS_24).

(** Alice's permissions were cached at instant 1000, when [routes.read]
    was all her roles gave; her roles have since become those of [st0]. The
    entry is inside its TTL at [env_last] and no longer at [env_after], one
    millisecond later. *)
Definition st_stale : State :=
  mkState [alice; root] []
          (<[cacheKey "u-alice" := mkEntry [routes_read] 1000]> ∅) 0.
Definition env_last : Env :=
  mkEnv (1000 + CACHE_TTL - 1) "salt-B" "sess-2" true.
Definition env_after : Env :=
  mkEnv (1000 + CACHE_TTL) "salt-B" "sess-2" true.

End Demo.

(** ** The rest of the auth router *)

(** The body of [POST /register] after [validateRegister]; [nombres],
    [apellidos], [telefono] and [fechaNacimiento] are columns the core never
    reads and [User] does not carry. *)
Record RegisterBody := mkRegister {
  reg_email : string;
  reg_password : string
}.

Definition put_passwordHash (h : BcryptHash) (u : User) : User :=
  mkUser (user_id u) (email u) h (role u) (isActive u) (lastLogin u) (roles u).

(** [User.findOne({where: {email}})]. *)
Definition User_findOne_email (env : Env) (mail : string) : M (option User) :=
  pg env (fun st =>
    (find (fun u => String.eqb (email u) mail) (users st), st)).

Definition unique_error : Exn :=
  mkExn "SequelizeUniqueConstraintError" "Validation error" None.

(** [User.create(row)]: the primary key and the [unique] email are
    enforced by PostgreSQL. *)
Definition User_create (env : Env) (row : User) : M User :=
  fun st =>
    if pg_up env then
      if existsb (fun u => String.eqb (user_id u) (user_id row)
                           || String.eqb (email u) (email row)) (users st)
      then (Throw unique_error, tick st)
      else (Ok row, set_users (users st ++ [row])%list (tick st))
    else (Throw connection_error, tick st).

Section AuthRouter.

Variable jwt_sign : JwtPayload -> Z -> string.
Variable jwt_verify : string -> Z -> outcome JwtPayload.
Variable bcrypt_digest : nat -> string -> string -> string.

(** Joi's verdict on a register body: the first error message, if any. *)
Variable validateRegister : RegisterBody -> option string.

(** [setHours(getHours() + 24)], as for [createUserSession]. *)
Variable plus_24h_local : Z -> Z.

(** [POST /register]. [bcrypt.hash] runs twice, for the password and (in
    [createUserSession]) for the token: [pwsalt] is the salt drawn for the
    password, [salt env] the one drawn for the token. The new user and the
    new session get the uuid of the request as their ids, each in its own
    table. *)
Definition register (env : Env) (pwsalt : string) (body : RegisterBody)
    (req : Request) : M LoginData :=
  match validateRegister body with
  | Some message => throw (createError message 400)
  | None =>
      let* existingUser := User_findOne_email env (reg_email body) in
      match existingUser with
      | Some _ => throw (createError "Email already registered" 409)
      | None =>
          let passwordHash :=
            bcrypt_hash bcrypt_digest 12 pwsalt (reg_password body) in
          let* user :=
            User_create env
              (mkUser (uuid env) (reg_email body) passwordHash "user" true
                      None []) in
          let token := generateToken jwt_sign env user in
          let* session :=
            createUserSession bcrypt_digest plus_24h_local env user token req in
          ret (mkData (user_id user) (email user) (role user) token
                      (expiresAt session))
      end
  end.

(** [PUT /change-password], behind [authenticate]. *)
Definition changePassword (env : Env) (pwsalt : string)
    (currentPassword newPassword : option string) (req : Request)
  : M Result :=
  match truthy_string currentPassword, truthy_string newPassword with
  | Some current, Some new =>
      if Nat.ltb (js_length new) 6
      then throw (createError
                    "New password must be at least 6 characters long" 400)
      else
        match req_user req with
        | None => throw (mkExn "TypeError" "req.user is undefined" None)
        | Some actor =>
            let* found := User_findByPk env (user_id actor) in
            match found with
            | None => throw type_error
            | Some user =>
                if negb (bcrypt_compare bcrypt_digest current
                                        (passwordHash user))
                then throw (createError "Current password is incorrect" 400)
                else
                  let newPasswordHash :=
                    bcrypt_hash bcrypt_digest 12 pwsalt new in
                  let* _ := User_update env (put_passwordHash newPasswordHash)
                                        (user_id actor) in
                  ret (Respond 200 "Password changed successfully")
            end
        end
  | _, _ =>
      throw (createError
               "Current password and new password are required" 400)
  end.

End AuthRouter.

(** ** The rest of the users controller *)

(** [user.destroy()]: the row goes, and with it the rows of
    [user_sessions] that reference it ([ON DELETE CASCADE] in
    database.sql). *)
Definition User_destroy (env : Env) (id : string) : M unit :=
  pg env (fun st =>
    (tt,
     set_sessions
       (List.filter (fun s => negb (String.eqb (sess_userId s) id))
                    (sessions st))
       (set_users
          (List.filter (fun u => negb (String.eqb (user_id u) id)) (users st))
          st))).

(** [DELETE /:id]. *)
Definition deleteUser (env : Env) (req : Request) (id : string) : M Result :=
  let* found := User_findByPk env id in
  match found with
  | None => throw (createError "User not found" 404)
  | Some user =>
      match req_user req with
      | None => throw (mkExn "TypeError" "req.user is undefined" None)
      | Some actor =>
          if String.eqb (user_id actor) (user_id user)
          then throw (createError "You cannot delete your own account" 400)
          else
            let* _ := User_destroy env (user_id user) in
            ret (Respond 200 "User deleted successfully")
      end
  end.

(** The body of [PUT /:id]: [role] and [isActive], each given or
    [undefined], and whether one of [nombres], [apellidos], [telefono],
    [fechaNacimiento] (columns [User] does not carry) is given with a new
    value. *)
Record UpdateBody := mkUpdate {
  upd_profile : bool;
  upd_role : option string;
  upd_isActive : option bool
}.

Definition put_role (r : string) (u : User) : User :=
  mkUser (user_id u) (email u) (passwordHash u) r (isActive u) (lastLogin u)
         (roles u).

(** The assignments [updateUser] makes on the instance before
    [user.save()]. *)
Definition apply_update (actor : User) (body : UpdateBody) (user : User)
  : User :=
  if String.eqb (role actor) "admin" then
    let user1 :=
      match upd_role body with
      | Some r => put_role r user
      | None => user
      end in
    match upd_isActive body with
    | Some b => put_isActive b user1
    | None => user1
    end
  else user.

(** What [user.save()] has to write: nothing when no field of the
    instance changed. *)
Definition instance_changed (body : UpdateBody) (user saved : User) : bool :=
  upd_profile body
  || negb (String.eqb (role saved) (role user))
  || negb (Bool.eqb (isActive saved) (isActive user)).

(** [PUT /:id]. [user.save()] writes the instance back to the row of its
    id, when something changed. *)
Definition updateUser (env : Env) (req : Request) (id : string)
    (body : UpdateBody) : M Result :=
  let* found := User_findByPk env id in
  match found with
  | None => throw (createError "User not found" 404)
  | Some user =>
      match req_user req with
      | None => throw (mkExn "TypeError" "req.user is undefined" None)
      | Some actor =>
          if negb (String.eqb (role actor) "admin")
             && negb (String.eqb (user_id actor) (user_id user))
          then throw (createError "Access denied" 403)
          else
            let saved := apply_update actor body user in
            let* _ :=
              if instance_changed body user saved
              then User_update env (fun _ => saved) (user_id user)
              else ret 0%nat in
            let* _ := User_findByPk env (user_id user) in
            ret (Respond 200 "User updated successfully")
      end
  end.

Section UsersController.

Variable bcrypt_digest : nat -> string -> string -> string.

(** [PUT /:id/password]. *)
Definition changeUserPassword (env : Env) (pwsalt : string) (id : string)
    (newPassword : option string) : M Result :=
  match truthy_string newPassword with
  | None =>
      throw (createError
               "New password must be at least 6 characters long" 400)
  | Some new =>
      if Nat.ltb (js_length new) 6
      then throw (createError
                    "New password must be at least 6 characters long" 400)
      else
        let* found := User_findByPk env id in
        match found with
        | None => throw (createError "User not found" 404)
        | Some user =>
            let passwordHash := bcrypt_hash bcrypt_digest 12 pwsalt new in
            let* _ := User_update env (put_passwordHash passwordHash)
                                  (user_id user) in
            ret (Respond 200 "Password changed successfully")
        end
  end.

End UsersController.

(** ** routes/users.js: the guards in front of the admin routes *)

(** [router.<verb>(path, requireRole('admin'), authorize(required), handler)]:
    what reaches [handler]. *)
Definition admin_route (required : list Required) (env : Env) (req : Request)
  : M Result :=
  match requireRole (RoleSingle "admin") req with
  | Next req' => authorize required env req'
  | Respond status message => ret (Respond status message)
  end.

(** ** authorization.js: [requireAny] *)

(** What a middleware called with [(req, res, next)] does: it calls
    [next()], it calls [next(err)] or throws before returning, it answers
    through [res] and never calls [next], or it does neither (the promise
    of an [async] middleware rejects). *)
Inductive Signal :=
  | CallsNext
  | CallsNextWith (error : Exn)
  | Answers (status : Z) (message : string)
  | Silent.

(** A middleware also leaves the request object and the state as it made
    them. *)
Definition Middleware : Type := Request -> State -> Signal * Request * State.

(** How a run of [requireAny] ends: it calls [next()]; the request is
    answered (by a middleware, after which the loop waits for ever on its
    promise, or by the final 403); nothing is answered and the loop waits
    for ever; or [throw lastError] rejects the promise of [requireAny]. *)
Inductive AnyResult :=
  | AnyNext (req : Request)
  | AnyAnswered (status : Z) (message : string)
  | AnyWaiting
  | AnyThrows (error : Exn).

(** The [for] loop of [requireAny], from a value of [lastError] on. *)
Fixpoint requireAny_from (lastError : option Exn)
    (middlewares : list Middleware) (req : Request) (st : State)
  : AnyResult * State :=
  match middlewares with
  | [] =>
      match lastError with
      | Some error => (AnyThrows error, st)
      | None => (AnyAnswered 403 "Access denied", st)
      end
  | middleware :: rest =>
      match middleware req st with
      | (CallsNext, req', st') => (AnyNext req', st')
      | (CallsNextWith error, req', st') =>
          requireAny_from (Some error) rest req' st'
      | (Answers status message, _, st') => (AnyAnswered status message, st')
      | (Silent, _, st') => (AnyWaiting, st')
      end
  end.

Definition requireAny (middlewares : list Middleware) (req : Request)
    (st : State) : AnyResult * State :=
  requireAny_from None middlewares req st.

(** The guards of this file as middlewares: the [async] ones ([authorize],
    [requireOwnership], [authenticate]) and the plain function
    [requireRole] returns. None of them calls [next(err)]. *)
Definition async_guard (g : Request -> M Result) : Middleware :=
  fun req st =>
    match g req st with
    | (Ok (Next req'), st') => (CallsNext, req', st')
    | (Ok (Respond status message), st') => (Answers status message, req, st')
    | (Throw _, st') => (Silent, req, st')
    end.

Definition sync_guard (g : Request -> Result) : Middleware :=
  fun req st =>
    match g req with
    | Next req' => (CallsNext, req', st)
    | Respond status message => (Answers status message, req, st)
    end.

(** A middleware that never calls [next(err)]. *)
Definition never_fails (m : Middleware) : Prop :=
  forall req st error, fst (fst (m req st)) <> CallsNextWith error.

(** ** More of the small installation *)

Module Scenario.

Definition validate (body : RegisterBody) : option string := None.

Definition carol_body : RegisterBody :=
  mkRegister "carol@example.org" "carol-secret".

Definition env_register : Env := mkEnv 3000 "salt-C" "u-carol" true.
Definition env_later : Env := mkEnv 4000 "salt-D" "sess-9" true.
Definition env_sweep : Env := mkEnv (1000 + HOURS_24 + 1) "salt-E" "x" true.

(** Carol has registered on top of the installation. *)
Definition st_registered : State :=
  snd (register Demo.jwt_sign Demo.digest validate Demo.plus_24h
      env_register "salt-P"
                carol_body Demo.anonymous Demo.st0).

(** Alice, logged in, presents her token while the salt of her login is
    drawn again: the request [authenticate] hands on. *)
Definition as_alice_session : Request :=
  mkRequest (Some ("Bearer " +:+ Demo.token)) "10.0.0.1" "curl"
            (Some (touch_lastLogin 1000 Demo.alice)) (Some Demo.session1).

(** Alice's permissions are in the cache, read at instant 1000. *)
Definition st_cached : State :=
  snd (getUserPermissions Demo.env_login "u-alice" Demo.st0).

Definition empty_bearer : Request :=
  mkRequest (Some "Bearer ") "10.0.0.1" "curl" None None.
Definition garbage : Request :=
  mkRequest (Some "Bearer not-a-token") "10.0.0.1" "curl" None None.

End Scenario.

(** * Properties *)

(** Unfolds the monad of a request and the Sequelize calls down to matches
    on the state. *)
Ltac run_M :=
  unfold try_catch, bind, lift, ret, throw, cache_get, cache_set,
    UserSession_findOne, UserSession_create, UserSession_destroy,
    User_update, User_findByPk, User_findOne_active, pg.

(** ** Strings *)

Lemma strip_prefix_app (p s : string) : strip_prefix p (p +:+ s) = Some s.
Proof.
  induction p as [|a p IH]; simpl; [reflexivity|].
  rewrite Ascii.eqb_refl. exact IH.
Qed.

Lemma js_replace_unfold (pat rep s : string) :
  js_replace pat rep s =
  match strip_prefix pat s with
  | Some rest => rep +:+ rest
  | None =>
      match s with
      | EmptyString => EmptyString
      | String c s' => String c (js_replace pat rep s')
      end
  end.
Proof. destruct s; reflexivity. Qed.

Lemma js_replace_prefix (p s : string) : js_replace p "" (p +:+ s) = s.
Proof. rewrite js_replace_unfold, strip_prefix_app. reflexivity. Qed.

Lemma bearer_token_of_header (tok : string) (ip ua : string)
    (u : option User) (s : option UserSession) :
  tok <> "" ->
  bearer_token (mkRequest (Some ("Bearer " +:+ tok)) ip ua u s) = Some tok.
Proof.
  intros Hne. unfold bearer_token. cbn [authorization].
  rewrite js_replace_prefix. destruct tok; [congruence | reflexivity].
Qed.

(** ** The session lookup *)

Lemma joined_user_Some (uid : string) (us : list User) (s : UserSession)
    (u : User) :
  joined_user uid us s = Some u ->
  u ∈ us /\ user_id u = sess_userId s /\ user_id u = uid /\ isActive u = true.
Proof.
  unfold joined_user. intros H. apply find_some in H as [Hin Hb].
  apply andb_prop in Hb as [Hb Hact]. apply andb_prop in Hb as [H1 H2].
  apply String.eqb_eq in H1, H2. rewrite list_elem_of_In. auto.
Qed.

Lemma joined_user_inactive (uid : string) (us : list User) (s : UserSession) :
  (forall u, u ∈ us -> user_id u = uid -> isActive u = false) ->
  joined_user uid us s = None.
Proof.
  intros Hoff. destruct (joined_user uid us s) as [u|] eqn:E; [|reflexivity].
  apply joined_user_Some in E as (Hin & _ & Hid & Hact).
  rewrite (Hoff u Hin Hid) in Hact. discriminate.
Qed.

Lemma find_session_Some (h : BcryptHash) (t : Z) (uid : string)
    (us : list User) (rows : list UserSession) (s : UserSession) (u : User) :
  find_session h t uid us rows = Some (s, u) ->
  s ∈ rows /\ tokenHash s = h /\ t < expiresAt s /\
  u ∈ us /\ user_id u = sess_userId s /\ user_id u = uid /\
  isActive u = true.
Proof.
  induction rows as [|r rows IH]; simpl; [discriminate|].
  destruct (bool_decide (tokenHash r = h) && Z.ltb t (expiresAt r)) eqn:Hw.
  - destruct (joined_user uid us r) as [v|] eqn:Hj.
    + intros [= <- <-]. apply andb_prop in Hw as [Hh Ht].
      apply bool_decide_eq_true in Hh. apply Z.ltb_lt in Ht.
      apply joined_user_Some in Hj. split; [left|]. tauto.
    + intros H. apply IH in H as (Hin & Hrest). split; [by right | exact Hrest].
  - intros H. apply IH in H as (Hin & Hrest). split; [by right | exact Hrest].
Qed.

Lemma find_session_no_hash (h : BcryptHash) (t : Z) (uid : string)
    (us : list User) (rows : list UserSession) :
  (forall s, s ∈ rows -> tokenHash s <> h) ->
  find_session h t uid us rows = None.
Proof.
  intros Hno.
  destruct (find_session h t uid us rows) as [[s u]|] eqn:E; [|reflexivity].
  apply find_session_Some in E as (Hin & Hh & _). destruct (Hno s Hin Hh).
Qed.

Lemma find_session_inactive (h : BcryptHash) (t : Z) (uid : string)
    (us : list User) (rows : list UserSession) :
  (forall u, u ∈ us -> user_id u = uid -> isActive u = false) ->
  find_session h t uid us rows = None.
Proof.
  intros Hoff.
  destruct (find_session h t uid us rows) as [[s u]|] eqn:E; [|reflexivity].
  apply find_session_Some in E as (_ & _ & _ & Hin & _ & Hid & Hact).
  rewrite (Hoff u Hin Hid) in Hact. discriminate.
Qed.

(** ** The role gate *)

Lemma existsb_eqb_elem (x : string) (l : list string) :
  existsb (String.eqb x) l = true <-> x ∈ l.
Proof.
  rewrite existsb_exists, list_elem_of_In. split.
  - intros (y & Hin & Heq). apply String.eqb_eq in Heq. by subst.
  - intros Hin. exists x. split; [exact Hin | apply String.eqb_refl].
Qed.

(** C8. For an authenticated identity [u] and a list [allowedRoles], the
    role gate hands the request on exactly when [role u] is one of
    [allowedRoles]; otherwise it answers 403; an admin whose role is not
    listed is refused like anyone else. *)
Theorem requireRole_decides (u : User) (allowedRoles : list string)
    (req : Request) :
  req_user req = Some u ->
  (requireRole (RolesArray allowedRoles) req = Next req
   <-> role u ∈ allowedRoles) /\
  (role u ∉ allowedRoles ->
   requireRole (RolesArray allowedRoles) req
   = Respond 403 "Insufficient role permissions") /\
  (role u = "admin" -> "admin" ∉ allowedRoles ->
   requireRole (RolesArray allowedRoles) req
   = Respond 403 "Insufficient role permissions").
Proof.
  intros Hu. unfold requireRole. rewrite Hu.
  destruct (existsb (String.eqb (role u)) allowedRoles) eqn:E; simpl.
  - apply existsb_eqb_elem in E. split; [tauto|]. split.
    + intros Hn. destruct (Hn E).
    + intros Hadm Hn. rewrite Hadm in E. destruct (Hn E).
  - assert (Hn : role u ∉ allowedRoles).
    { intros Hin. apply existsb_eqb_elem in Hin. congruence. }
    split; [|split; reflexivity].
    split; [discriminate | intros Hin; destruct (Hn Hin)].
Qed.

(** ** The ownership gate *)

Lemma strict_eq_string_true (v : JsValue) (s : string) :
  strict_eq_string v s = true <-> v = JsString s.
Proof.
  destruct v; simpl; try (split; [discriminate | congruence]).
  rewrite String.eqb_eq. split; congruence.
Qed.

(** C9. For an authenticated identity [u] and a resource whose owner id
    resolves to [owner], the ownership gate hands the request on exactly
    when [u] is an admin or [owner] is [u]'s id; anyone else gets the 403
    of a non-owner. *)
Theorem requireOwnership_decides (u : User) (owner : JsValue)
    (getResourceUserId : Request -> M JsValue) (req : Request)
    (st st' : State) :
  req_user req = Some u ->
  getResourceUserId req st = (Ok owner, st') ->
  (fst (requireOwnership getResourceUserId req st) = Ok (Next req)
   <-> role u = "admin" \/ owner = JsString (user_id u)) /\
  (~ (role u = "admin" \/ owner = JsString (user_id u)) ->
   fst (requireOwnership getResourceUserId req st)
   = Ok (Respond 403
           "Access denied: You can only access your own resources")).
Proof.
  intros Hu Hget. unfold requireOwnership, try_catch. rewrite Hu.
  destruct (String.eqb_spec (role u) "admin") as [Hadm|Hadm].
  - cbn. split; [tauto|]. intros Hn. destruct Hn. by left.
  - unfold bind. rewrite Hget.
    destruct (strict_eq_string owner (user_id u)) eqn:E; cbn.
    + apply strict_eq_string_true in E. split; [tauto|].
      intros Hn. destruct Hn. by right.
    + assert (Hne : owner <> JsString (user_id u)).
      { intros Heq. apply strict_eq_string_true in Heq. congruence. }
      split; [|reflexivity]. split; [discriminate|]. intros [?|?]; tauto.
Qed.

(** ** Authentication *)

Section AuthProperties.

Variable jwt_sign : JwtPayload -> Z -> string.
Variable jwt_verify : string -> Z -> outcome JwtPayload.
Variable bcrypt_digest : nat -> string -> string -> string.
Variable validateLogin : LoginBody -> option string.
Variable plus_24h_local : Z -> Z.

(** [authenticate] on a token that verifies, with PostgreSQL up: the
    answer is decided by the session lookup alone. *)
Lemma authenticate_verified (env : Env) (req : Request) (st : State)
    (tok : string) (dec : JwtPayload) :
  bearer_token req = Some tok ->
  jwt_verify tok (now env) = Ok dec ->
  pg_up env = true ->
  authenticate jwt_verify bcrypt_digest env req st =
  match find_session (bcrypt_hash bcrypt_digest 10 (salt env) tok) (now env)
                     (userId dec) (users st) (sessions st) with
  | None => (Ok (Respond 401 "Invalid or expired token"), tick st)
  | Some (s, u) =>
      (Ok (Next (attach req u s)),
       set_users (update_where (userId dec) (touch_lastLogin (now env))
                               (users st))
                 (tick (tick st)))
  end.
Proof.
  intros Htok Hdec Hup.
  unfold authenticate. run_M.
  rewrite Htok, Hdec, Hup. cbn [users sessions tick].
  destruct (find_session _ _ _ _ _) as [[s u]|]; reflexivity.
Qed.

(** [authenticate] never throws, and hands the request on only with a
    session the lookup found. *)
Lemma authenticate_result (env : Env) (req : Request) (st : State) :
  exists r, fst (authenticate jwt_verify bcrypt_digest env req st) = Ok r /\
    forall req', r = Next req' ->
      exists tok dec s u,
        bearer_token req = Some tok /\
        jwt_verify tok (now env) = Ok dec /\
        find_session (bcrypt_hash bcrypt_digest 10 (salt env) tok) (now env)
                     (userId dec) (users st) (sessions st) = Some (s, u) /\
        req' = attach req u s.
Proof.
  unfold authenticate. run_M.
  destruct (bearer_token req) as [tok|]; [|eexists; split; [reflexivity|discriminate]].
  destruct (jwt_verify tok (now env)) as [dec|e] eqn:Hdec.
  - destruct (pg_up env) eqn:Hup.
    + cbn [users sessions tick].
      destruct (find_session _ _ _ _ _) as [[s u]|] eqn:Hf.
      * eexists; split; [reflexivity|].
        intros req' [= <-]. exists tok, dec, s, u. auto.
      * eexists; split; [reflexivity|discriminate].
    + cbn. eexists; split; [reflexivity|discriminate].
  - destruct (String.eqb (exn_name e) "JsonWebTokenError");
      [|destruct (String.eqb (exn_name e) "TokenExpiredError")];
      eexists; (split; [reflexivity|discriminate]).
Qed.

(** C10. [optionalAuth] answers every request with [next()]: it never
    throws and never sends a response, it leaves the tables as they are,
    and the request it hands on is the incoming one unless the lookup
    found an unexpired session of the presented token joined to an active
    identity, which it then attaches. *)
Theorem optionalAuth_never_rejects (env : Env) (req : Request) (st : State) :
  exists req',
    fst (optionalAuth jwt_verify bcrypt_digest env req st) = Ok (Next req') /\
    users (snd (optionalAuth jwt_verify bcrypt_digest env req st)) = users st /\
    sessions (snd (optionalAuth jwt_verify bcrypt_digest env req st))
    = sessions st /\
    (req' = req \/
     exists tok dec s u,
       bearer_token req = Some tok /\
       jwt_verify tok (now env) = Ok dec /\
       pg_up env = true /\
       s ∈ sessions st /\
       tokenHash s = bcrypt_hash bcrypt_digest 10 (salt env) tok /\
       now env < expiresAt s /\
       u ∈ users st /\
       user_id u = sess_userId s /\
       user_id u = userId dec /\
       isActive u = true /\
       req' = attach req u s).
Proof.
  unfold optionalAuth. run_M.
  destruct (bearer_token req) as [tok|]; [|exists req; cbn; auto].
  destruct (jwt_verify tok (now env)) as [dec|e] eqn:Hdec;
    [|exists req; cbn; auto].
  destruct (pg_up env) eqn:Hup; [|exists req; cbn; auto].
  cbn [users sessions tick].
  destruct (find_session _ _ _ _ _) as [[s u]|] eqn:Hf;
    [|exists req; cbn; auto].
  exists (attach req u s). cbn. repeat (split; [reflexivity|]). right.
  apply find_session_Some in Hf as (? & ? & ? & ? & ? & ? & ?).
  exists tok, dec, s, u. auto 12.
Qed.

(** *** Login, then the token comes back *)

Lemma bcrypt_compare_hash (rounds : nat) (drawn tok : string) :
  bcrypt_compare bcrypt_digest tok (bcrypt_hash bcrypt_digest rounds drawn tok)
  = true.
Proof. unfold bcrypt_compare, bcrypt_hash. cbn. apply String.eqb_refl. Qed.

(** What a successful login did. *)
Lemma login_Ok (env : Env) (body : LoginBody) (req : Request)
    (st st1 : State) (d : LoginData) :
  login jwt_sign bcrypt_digest validateLogin plus_24h_local
      env body req st = (Ok d, st1) ->
  exists user,
    user ∈ users st /\ isActive user = true /\
    pg_up env = true /\
    data_user_id d = user_id user /\
    data_token d = generateToken jwt_sign env user /\
    data_expiresAt d = plus_24h_local (now env) /\
    sessions st1 =
      (sessions st ++
       [mkSession (uuid env) (user_id user)
                  (bcrypt_hash bcrypt_digest 10 (salt env) (data_token d))
                  (req_ip req) (req_userAgent req) (plus_24h_local (now env))])%list /\
    users st1 = update_where (user_id user) (touch_lastLogin (now env))
                             (users st).
Proof.
  unfold login, createUserSession. run_M.
  destruct (validateLogin body); [discriminate|].
  destruct (pg_up env) eqn:Hup; [|discriminate].
  cbn [users sessions tick].
  destruct (find _ (users st)) as [user|] eqn:Hfind; [|discriminate].
  destruct (bcrypt_compare _ _ _); cbn [negb]; [|discriminate].
  cbn. intros [= <- <-]. exists user. cbn.
  apply find_some in Hfind as [Hin Hb]. apply andb_prop in Hb as [_ Hact].
  rewrite list_elem_of_In. auto 10.
Qed.

Lemma find_session_found (h : BcryptHash) (t : Z) (uid : string)
    (us : list User) (rows : list UserSession) (s : UserSession) :
  s ∈ rows -> tokenHash s = h -> t < expiresAt s ->
  is_Some (joined_user uid us s) ->
  is_Some (find_session h t uid us rows).
Proof.
  intros Hin Hh Ht [u Hu]. induction rows as [|r rows IH]; [by inversion Hin|].
  simpl.
  destruct (bool_decide (tokenHash r = h) && Z.ltb t (expiresAt r)) eqn:Hw.
  - destruct (joined_user uid us r) as [v|] eqn:Hj; [by eexists|].
    apply elem_of_cons in Hin as [->|Hin]; [congruence | by apply IH].
  - apply elem_of_cons in Hin as [->|Hin]; [|by apply IH].
    apply andb_false_iff in Hw as [Hw|Hw].
    + apply bool_decide_eq_false in Hw. congruence.
    + apply Z.ltb_ge in Hw. lia.
Qed.

Lemma joined_user_after_touch (t : Z) (us : list User) (s : UserSession)
    (user : User) :
  user ∈ us -> isActive user = true -> sess_userId s = user_id user ->
  is_Some (joined_user (user_id user)
             (update_where (user_id user) (touch_lastLogin t) us) s).
Proof.
  intros Hin Hact Hs. unfold joined_user.
  destruct (find _ _) as [v|] eqn:E; [by eexists|].
  exfalso. assert (Hmem : In (touch_lastLogin t user)
                    (update_where (user_id user) (touch_lastLogin t) us)).
  { unfold update_where. apply in_map_iff. exists user.
    rewrite String.eqb_refl. split; [reflexivity | by apply list_elem_of_In]. }
  pose proof (find_none _ _ E _ Hmem) as Hb. cbn in Hb.
  rewrite Hs, String.eqb_refl, Hact in Hb. discriminate.
Qed.

(** C1 (the defect). After a successful login, [authenticate] on the
    token just issued recomputes [bcrypt.hash(token, 10)] with the salt it
    draws now; whenever that salt is not the one drawn at login (nor one
    of an older row), no stored [tokenHash] equals the recomputed hash and
    the request is refused with 401 although the session is unexpired and
    the identity active. *)
Theorem login_then_authenticate_fresh_salt (env1 env2 : Env)
    (body : LoginBody) (req1 : Request) (st st1 : State) (d : LoginData)
    (dec : JwtPayload) (ip ua : string) :
  login jwt_sign bcrypt_digest validateLogin plus_24h_local
      env1 body req1 st = (Ok d, st1) ->
  data_token d <> "" ->
  jwt_verify (data_token d) (now env2) = Ok dec ->
  userId dec = data_user_id d ->
  now env2 < data_expiresAt d ->
  pg_up env2 = true ->
  salt env2 <> salt env1 ->
  (forall s, s ∈ sessions st -> hsalt (tokenHash s) <> salt env2) ->
  fst (authenticate jwt_verify bcrypt_digest env2
         (mkRequest (Some ("Bearer " +:+ data_token d)) ip ua None None) st1)
  = Ok (Respond 401 "Invalid or expired token").
Proof.
  intros Hlogin Hne Hdec _ _ Hup Hsalt Hold.
  apply login_Ok in Hlogin as (user & _ & _ & _ & _ & _ & _ & Hsess & _).
  rewrite (authenticate_verified env2 _ st1 (data_token d) dec);
    [|by apply bearer_token_of_header|exact Hdec|exact Hup].
  rewrite find_session_no_hash; [reflexivity|].
  intros s Hin Hh. rewrite Hsess in Hin.
  apply elem_of_app in Hin as [Hin|Hin].
  - apply (Hold s Hin). rewrite Hh. reflexivity.
  - apply list_elem_of_singleton in Hin. subst s. cbn in Hh.
    unfold bcrypt_hash in Hh. apply Hsalt. congruence.
Qed.

(** Were the salt the same at both ends, the lookup would find a row and
    the identity of the login would come back. *)
Lemma login_then_authenticate_same_salt (env1 env2 : Env)
    (body : LoginBody) (req1 : Request) (st st1 : State) (d : LoginData)
    (dec : JwtPayload) (ip ua : string) :
  login jwt_sign bcrypt_digest validateLogin plus_24h_local
      env1 body req1 st = (Ok d, st1) ->
  data_token d <> "" ->
  jwt_verify (data_token d) (now env2) = Ok dec ->
  userId dec = data_user_id d ->
  now env2 < data_expiresAt d ->
  pg_up env2 = true ->
  salt env2 = salt env1 ->
  exists u s,
    fst (authenticate jwt_verify bcrypt_digest env2
           (mkRequest (Some ("Bearer " +:+ data_token d)) ip ua None None) st1)
    = Ok (Next (mkRequest (Some ("Bearer " +:+ data_token d)) ip ua
                          (Some u) (Some s))) /\
    user_id u = data_user_id d.
Proof.
  intros Hlogin Hne Hdec Hid Hnow Hup Hsalt.
  apply login_Ok in Hlogin
    as (user & Hin & Hact & _ & Hdid & _ & Hexp & Hsess & Husers).
  rewrite (authenticate_verified env2 _ st1 (data_token d) dec);
    [|by apply bearer_token_of_header|exact Hdec|exact Hup].
  destruct (find_session _ _ _ _ _) as [[s u]|] eqn:Hf.
  - exists u, s. split; [reflexivity|].
    apply find_session_Some in Hf as (_ & _ & _ & _ & _ & Hu & _). congruence.
  - exfalso. eapply is_Some_None. rewrite <- Hf.
    eapply find_session_found.
    + rewrite Hsess. apply elem_of_app. right. apply list_elem_of_singleton.
      reflexivity.
    + cbn. rewrite Hsalt. reflexivity.
    + cbn. lia.
    + rewrite Husers, Hid, Hdid.
      by apply joined_user_after_touch.
Qed.

(** *** Sessions that are gone, identities that are switched off *)

(** When the lookup cannot succeed, [authenticate] answers with an error
    status, whatever else happens on the way. *)
Lemma authenticate_no_session (env : Env) (req : Request) (st : State)
    (tok : string) :
  bearer_token req = Some tok ->
  (forall dec, jwt_verify tok (now env) = Ok dec ->
     find_session (bcrypt_hash bcrypt_digest 10 (salt env) tok) (now env)
                  (userId dec) (users st) (sessions st) = None) ->
  exists status message,
    fst (authenticate jwt_verify bcrypt_digest env req st)
    = Ok (Respond status message) /\ (status = 401 \/ status = 500).
Proof.
  intros Htok Hnone.
  unfold authenticate. run_M.
  rewrite Htok.
  destruct (jwt_verify tok (now env)) as [dec|e] eqn:Hdec.
  - destruct (pg_up env) eqn:Hup.
    + cbn [users sessions tick]. rewrite (Hnone dec eq_refl).
      do 2 eexists. split; [reflexivity | by left].
    + cbn. do 2 eexists. split; [reflexivity | by right].
  - destruct (String.eqb (exn_name e) "JsonWebTokenError");
      [|destruct (String.eqb (exn_name e) "TokenExpiredError")];
      do 2 eexists; (split; [reflexivity | auto]).
Qed.

Lemma destroyUserSession_Ok (env : Env) (sid : string) (st st1 : State)
    (n : nat) :
  destroyUserSession env sid st = (Ok n, st1) ->
  users st1 = users st /\
  sessions st1
  = List.filter (fun s => negb (String.eqb (sess_id s) sid)) (sessions st) /\
  n = length (List.filter (fun s => String.eqb (sess_id s) sid) (sessions st)).
Proof.
  unfold destroyUserSession. run_M.
  destruct (pg_up env); [|discriminate]. cbn. intros [= <- <-]. auto.
Qed.

(** C5 (as the code has it). Once [destroyUserSession] has removed the
    rows of session id [sid], and [sid] was the only session of the
    token, every later [authenticate] with that token is refused: with
    401 or, when PostgreSQL is down, 500; when the token still verifies
    and PostgreSQL answers, the refusal is the 401 with the message
    that also covers expired sessions. No row of id [sid] is left. *)
Theorem destroyed_session_rejected (env1 env2 : Env) (sid : string)
    (st st1 : State) (n : nat) (tok ip ua : string) :
  destroyUserSession env1 sid st = (Ok n, st1) ->
  tok <> "" ->
  (forall s, s ∈ sessions st ->
     bcrypt_compare bcrypt_digest tok (tokenHash s) = true ->
     sess_id s = sid) ->
  (forall s, s ∈ sessions st1 -> sess_id s <> sid) /\
  (exists status message,
     fst (authenticate jwt_verify bcrypt_digest env2
            (mkRequest (Some ("Bearer " +:+ tok)) ip ua None None) st1)
     = Ok (Respond status message) /\ (status = 401 \/ status = 500)) /\
  (forall dec,
     jwt_verify tok (now env2) = Ok dec -> pg_up env2 = true ->
     fst (authenticate jwt_verify bcrypt_digest env2
            (mkRequest (Some ("Bearer " +:+ tok)) ip ua None None) st1)
     = Ok (Respond 401 "Invalid or expired token")).
Proof.
  intros Hdestroy Hne Honly.
  apply destroyUserSession_Ok in Hdestroy as (Hus & Hss & _).
  assert (Hgone : forall s, s ∈ sessions st1 -> sess_id s <> sid).
  { intros s Hin Heq. rewrite Hss in Hin. apply list_elem_of_In in Hin.
    apply filter_In in Hin as [_ Hb]. apply negb_true_iff in Hb.
    apply String.eqb_neq in Hb. contradiction. }
  assert (Hnone : forall uid,
    find_session (bcrypt_hash bcrypt_digest 10 (salt env2) tok) (now env2)
                 uid (users st1) (sessions st1) = None).
  { intros uid. apply find_session_no_hash. intros s Hin Hh.
    apply (Hgone s Hin). apply Honly.
    - rewrite Hss in Hin. apply list_elem_of_In in Hin.
      apply filter_In in Hin as [Hin _]. by apply list_elem_of_In.
    - rewrite Hh. apply bcrypt_compare_hash. }
  split; [exact Hgone|]. split.
  - eapply authenticate_no_session; [by apply bearer_token_of_header|].
    intros dec _. apply Hnone.
  - intros dec Hdec Hup.
    rewrite (authenticate_verified env2 _ st1 tok dec);
      [|by apply bearer_token_of_header|exact Hdec|exact Hup].
    rewrite Hnone. reflexivity.
Qed.

Lemma toggleUserStatus_deactivates (env : Env) (req : Request)
    (id : string) (st st1 : State) (r : Result) (target : User) :
  toggleUserStatus env req id st = (Ok r, st1) ->
  find (fun u => String.eqb (user_id u) id) (users st) = Some target ->
  isActive target = true ->
  r = Respond 200 "User deactivated successfully" /\
  sessions st1 = sessions st /\
  forall u, u ∈ users st1 -> user_id u = id -> isActive u = false.
Proof.
  unfold toggleUserStatus. run_M.
  intros Hrun Hfind Hact. destruct (pg_up env); [|discriminate].
  cbn [users tick] in Hrun. rewrite Hfind in Hrun.
  destruct (req_user req) as [actor|]; [|discriminate].
  destruct (String.eqb (user_id actor) (user_id target)); [discriminate|].
  rewrite Hact in Hrun. cbn in Hrun. injection Hrun as <- <-.
  apply find_some in Hfind as [_ Hid]. apply String.eqb_eq in Hid.
  split; [reflexivity|]. split; [reflexivity|].
  cbn. intros u Hin Hu. apply list_elem_of_In in Hin.
  unfold update_where in Hin. apply in_map_iff in Hin as (v & Hv & _).
  rewrite Hid in Hv.
  destruct (String.eqb_spec (user_id v) id) as [_|Hne]; subst u;
    [reflexivity | contradiction].
Qed.

(** C6 (as the code has it). Once [toggleUserStatus] has switched an
    active identity off, every later [authenticate] with a token of that
    identity is refused, however long its sessions still run: with 401
    or, when PostgreSQL is down, 500; when the token verifies and
    PostgreSQL answers, the refusal is the 401 with the message that also
    covers missing and expired sessions. The session rows stay. *)
Theorem deactivated_identity_rejected (env1 env2 : Env) (req1 : Request)
    (id : string) (st st1 : State) (r : Result) (target : User)
    (tok ip ua : string) :
  toggleUserStatus env1 req1 id st = (Ok r, st1) ->
  find (fun u => String.eqb (user_id u) id) (users st) = Some target ->
  isActive target = true ->
  tok <> "" ->
  (forall dec, jwt_verify tok (now env2) = Ok dec -> userId dec = id) ->
  sessions st1 = sessions st /\
  (exists status message,
     fst (authenticate jwt_verify bcrypt_digest env2
            (mkRequest (Some ("Bearer " +:+ tok)) ip ua None None) st1)
     = Ok (Respond status message) /\ (status = 401 \/ status = 500)) /\
  (forall dec,
     jwt_verify tok (now env2) = Ok dec -> pg_up env2 = true ->
     fst (authenticate jwt_verify bcrypt_digest env2
            (mkRequest (Some ("Bearer " +:+ tok)) ip ua None None) st1)
     = Ok (Respond 401 "Invalid or expired token")).
Proof.
  intros Htoggle Hfind Hact Hne Hid.
  destruct (toggleUserStatus_deactivates _ _ _ _ _ _ _ Htoggle Hfind Hact)
    as (_ & Hss & Hoff).
  split; [exact Hss|]. split.
  - eapply authenticate_no_session; [by apply bearer_token_of_header|].
    intros dec Hdec. apply find_session_inactive.
    rewrite (Hid dec Hdec). exact Hoff.
  - intros dec Hdec Hup.
    rewrite (authenticate_verified env2 _ st1 tok dec);
      [|by apply bearer_token_of_header|exact Hdec|exact Hup].
    rewrite find_session_inactive; [reflexivity|].
    rewrite (Hid dec Hdec). exact Hoff.
Qed.

End AuthProperties.

(** ** The expired-session sweep *)

Lemma cleanExpiredSessions_run (env : Env) (st : State) :
  pg_up env = true ->
  cleanExpiredSessions env st =
  (Ok (length (List.filter (fun s => Z.ltb (expiresAt s) (now env))
                           (sessions st))),
   set_sessions (List.filter (fun s => negb (Z.ltb (expiresAt s) (now env)))
                             (sessions st))
                (tick st)).
Proof.
  intros Hup. unfold cleanExpiredSessions. run_M.
  rewrite Hup. reflexivity.
Qed.

(** C3 (as the code has it). With PostgreSQL up, [cleanExpiredSessions]
    at instant [now] removes exactly the rows whose expiry is strictly
    before [now]: a row is left if and only if it was there and
    [now <= expiresAt]; the rows left are the old ones, in their order; users
    and cache are not touched; the number returned is the number of rows
    removed. *)
Theorem cleanExpiredSessions_removes_strictly_expired (env : Env)
    (st : State) :
  pg_up env = true ->
  exists n st',
    cleanExpiredSessions env st = (Ok n, st') /\
    sessions st'
    = List.filter (fun s => negb (Z.ltb (expiresAt s) (now env))) (sessions st) /\
    (forall s, s ∈ sessions st' <-> s ∈ sessions st /\ now env <= expiresAt s) /\
    n = length (List.filter (fun s => Z.ltb (expiresAt s) (now env))
                            (sessions st)) /\
    (n + length (sessions st') = length (sessions st))%nat /\
    users st' = users st /\
    permissionsCache st' = permissionsCache st.
Proof.
  intros Hup. do 2 eexists. split; [by apply cleanExpiredSessions_run|].
  cbn. split; [reflexivity|]. split.
  - intros s. rewrite !list_elem_of_In, filter_In, negb_true_iff, Z.ltb_ge.
    reflexivity.
  - split; [reflexivity|]. split; [apply filter_length | auto].
Qed.

(** ** Permission resolution *)

Lemma getUserPermissions_hit (env : Env) (id : string) (st : State)
    (c : CacheEntry) :
  permissionsCache st !! cacheKey id = Some c ->
  now env - timestamp c < CACHE_TTL ->
  getUserPermissions env id st = (Ok (permissions c), st).
Proof.
  intros Hc Hfresh. unfold getUserPermissions, bind, cache_get.
  rewrite Hc. apply Z.ltb_lt in Hfresh. rewrite Hfresh. reflexivity.
Qed.

Lemma getUserPermissions_miss (env : Env) (id : string) (st : State) :
  cache_stale env id st ->
  getUserPermissions env id st =
  if pg_up env then
    match find (fun u => String.eqb (user_id u) id) (users st) with
    | Some user =>
        (Ok (collect_permissions (roles user)),
         set_cache (<[cacheKey id :=
                        mkEntry (collect_permissions (roles user)) (now env)]>
                      (permissionsCache st))
                   (tick st))
    | None => (Ok [], tick st)
    end
  else (Ok [], tick st).
Proof.
  intros Hstale.
  assert (Hmiss :
    try_catch
      (let* user := User_findByPk env id in
       match user with
       | None => ret []
       | Some user =>
           let permissions := collect_permissions (roles user) in
           let* _ := cache_set (cacheKey id) (mkEntry permissions (now env)) in
           ret permissions
       end)
      (fun _ => ret []) st
    = if pg_up env then
        match find (fun u => String.eqb (user_id u) id) (users st) with
        | Some user =>
            (Ok (collect_permissions (roles user)),
             set_cache (<[cacheKey id :=
                            mkEntry (collect_permissions (roles user)) (now env)]>
                          (permissionsCache st))
                       (tick st))
        | None => (Ok [], tick st)
        end
      else (Ok [], tick st)).
  { run_M.
    destruct (pg_up env); [|reflexivity]. cbn [users tick].
    destruct (find _ (users st)); reflexivity. }
  unfold getUserPermissions, bind, cache_get.
  destruct (permissionsCache st !! cacheKey id) as [c|] eqn:Hc; [|exact Hmiss].
  specialize (Hstale c Hc). apply Z.ltb_ge in Hstale. rewrite Hstale.
  exact Hmiss.
Qed.

(** Resolution never throws. *)
Lemma getUserPermissions_total (env : Env) (id : string) (st : State) :
  exists perms st', getUserPermissions env id st = (Ok perms, st').
Proof.
  destruct (permissionsCache st !! cacheKey id) as [c|] eqn:Hc.
  - destruct (Z.lt_ge_cases (now env - timestamp c) CACHE_TTL) as [Hf|Hs].
    + do 2 eexists. by apply getUserPermissions_hit.
    + rewrite getUserPermissions_miss; [|intros c' Hc'; congruence].
      destruct (pg_up env); [destruct (find _ _)|]; by do 2 eexists.
  - rewrite getUserPermissions_miss; [|intros c' Hc'; congruence].
    destruct (pg_up env); [destruct (find _ _)|]; by do 2 eexists.
Qed.

(** *** The union over the roles *)

Lemma push_permission_cases (acc : list Permission) (p : Permission) :
  (In (perm_id p) (map perm_id acc) /\ push_permission acc p = acc) \/
  (~ In (perm_id p) (map perm_id acc) /\
   push_permission acc p = (acc ++ [p])%list).
Proof.
  unfold push_permission.
  destruct (find _ acc) as [q|] eqn:E.
  - left. apply find_some in E as [Hin Heq]. apply String.eqb_eq in Heq.
    split; [|reflexivity]. rewrite <- Heq. by apply in_map.
  - right. split; [|by destruct p].
    intros Hin. apply in_map_iff in Hin as (q & Heq & Hin).
    pose proof (find_none _ _ E q Hin) as Hb. cbn in Hb.
    apply String.eqb_neq in Hb. congruence.
Qed.

Lemma fold_push_spec (ps acc : list Permission) :
  NoDup (map perm_id acc) ->
  NoDup (map perm_id (fold_left push_permission ps acc)) /\
  (forall q, In q (fold_left push_permission ps acc) -> In q acc \/ In q ps) /\
  (forall q, In q acc -> In q (fold_left push_permission ps acc)) /\
  (forall p, In p ps ->
     In (perm_id p) (map perm_id (fold_left push_permission ps acc))).
Proof.
  revert acc. induction ps as [|p ps IH]; intros acc Hnd; simpl.
  - repeat split; auto. intros p [].
  - assert (Hnd' : NoDup (map perm_id (push_permission acc p))).
    { destruct (push_permission_cases acc p) as [[_ ->]|[Hfresh ->]]; [done|].
      rewrite map_app. apply NoDup_app. split; [done|]. split.
      - intros x Hx Hx'. apply list_elem_of_In in Hx, Hx'. simpl in Hx'.
        destruct Hx' as [<-|[]]. contradiction.
      - simpl. apply NoDup_singleton. }
    destruct (IH _ Hnd') as (H1 & H2 & H3 & H4).
    assert (Hkeep : forall q, In q acc -> In q (push_permission acc p)).
    { intros q Hq.
      destruct (push_permission_cases acc p) as [[_ ->]|[_ ->]]; [done|].
      apply in_or_app. by left. }
    split; [exact H1|]. split; [|split].
    + intros q Hq. destruct (H2 q Hq) as [Hq'|Hq']; [|by right; right].
      destruct (push_permission_cases acc p) as [[_ E]|[_ E]];
        rewrite E in Hq'; [by left|].
      apply in_app_or in Hq' as [?|[<-|[]]]; [by left | by right; left].
    + intros q Hq. apply H3, Hkeep, Hq.
    + intros q [<-|Hq]; [|by apply H4].
      assert (Hid : In (perm_id p) (map perm_id (push_permission acc p))).
      { destruct (push_permission_cases acc p) as [[Hin E]|[_ E]];
          rewrite E; [done|].
        rewrite map_app. apply in_or_app. right. by left. }
      apply in_map_iff in Hid as (q & Heq & Hq). rewrite <- Heq.
      apply in_map, H3, Hq.
Qed.

Lemma fold_roles_spec (rs : list Role) (acc : list Permission) :
  let res :=
    fold_left (fun acc r => fold_left push_permission (role_permissions r) acc)
              rs acc in
  NoDup (map perm_id acc) ->
  NoDup (map perm_id res) /\
  (forall q, In q res ->
     In q acc \/ exists r, In r rs /\ In q (role_permissions r)) /\
  (forall q, In q acc -> In q res) /\
  (forall r p, In r rs -> In p (role_permissions r) ->
     In (perm_id p) (map perm_id res)).
Proof.
  revert acc. induction rs as [|r rs IH]; intros acc res Hnd; subst res; simpl.
  - repeat split; auto. intros r p [].
  - destruct (fold_push_spec (role_permissions r) acc Hnd)
      as (G1 & G2 & G3 & G4).
    destruct (IH _ G1) as (H1 & H2 & H3 & H4).
    split; [exact H1|]. split; [|split].
    + intros q Hq. destruct (H2 q Hq) as [Hq'|(r' & Hr' & Hq')].
      * destruct (G2 q Hq') as [?|?]; [by left|].
        right. exists r. split; [by left | done].
      * right. exists r'. split; [by right | done].
    + intros q Hq. apply H3, G3, Hq.
    + intros r' p [<-|Hr'] Hp; [|by eapply H4].
      pose proof (G4 p Hp) as Hid.
      apply in_map_iff in Hid as (q & Heq & Hq). rewrite <- Heq.
      apply in_map, H3, Hq.
Qed.

(** [collect_permissions] is the union of the roles' permissions with one
    entry per permission id. *)
Lemma collect_permissions_union (rs : list Role) :
  NoDup (map perm_id (collect_permissions rs)) /\
  (forall q, q ∈ collect_permissions rs ->
     exists r, r ∈ rs /\ q ∈ role_permissions r) /\
  (forall r p, r ∈ rs -> p ∈ role_permissions r ->
     exists q, q ∈ collect_permissions rs /\ perm_id q = perm_id p).
Proof.
  destruct (fold_roles_spec rs [] (NoDup_nil_2 (A:=string))) as (H1 & H2 & _ & H4).
  split; [exact H1|]. split.
  - intros q Hq. apply list_elem_of_In in Hq.
    destruct (H2 q Hq) as [[]|(r & Hr & Hq')].
    exists r. by rewrite !list_elem_of_In.
  - intros r p Hr Hp. apply list_elem_of_In in Hr, Hp.
    pose proof (H4 r p Hr Hp) as Hid.
    apply in_map_iff in Hid as (q & Heq & Hq).
    exists q. by rewrite list_elem_of_In.
Qed.

(** C7 (as the code has it). A call of [getUserPermissions] that finds a
    cache entry for the identity inside its TTL returns the cached list and
    leaves the state as it is, so no statement reaches PostgreSQL. A call that
    finds none (no entry, or an expired one) reads the store; when the store
    answers and knows the identity the call returns the union of the
    permissions of the identity's roles, one entry per permission id, and
    caches that list with the instant of the call; when the store fails or
    does not know the identity the call returns the empty list and caches
    nothing. Hence, of two calls in a row, the second returns the very list the
    first returned without a statement whenever the first leaves an entry
    and the second comes inside the TTL of that entry (the clock not running
    backwards); this is the case whenever the first call resolves and the
    second follows less than the TTL later. *)
Theorem getUserPermissions_cache_behaviour (env1 env2 : Env) (id : string)
    (st : State) :
  (forall c,
     permissionsCache st !! cacheKey id = Some c ->
     now env1 - timestamp c < CACHE_TTL ->
     getUserPermissions env1 id st = (Ok (permissions c), st)) /\
  (forall u,
     cache_stale env1 id st ->
     pg_up env1 = true ->
     find (fun u => String.eqb (user_id u) id) (users st) = Some u ->
     getUserPermissions env1 id st
     = (Ok (collect_permissions (roles u)),
        set_cache (<[cacheKey id :=
                       mkEntry (collect_permissions (roles u)) (now env1)]>
                     (permissionsCache st))
                  (tick st)) /\
     NoDup (map perm_id (collect_permissions (roles u))) /\
     (forall q, q ∈ collect_permissions (roles u) ->
        exists r, r ∈ roles u /\ q ∈ role_permissions r) /\
     (forall r p, r ∈ roles u -> p ∈ role_permissions r ->
        exists q, q ∈ collect_permissions (roles u) /\ perm_id q = perm_id p)) /\
  (cache_stale env1 id st ->
   pg_up env1 = false \/
   find (fun u => String.eqb (user_id u) id) (users st) = None ->
   getUserPermissions env1 id st = (Ok [], tick st)) /\
  (forall e,
     now env1 <= now env2 ->
     permissionsCache (snd (getUserPermissions env1 id st)) !! cacheKey id
     = Some e ->
     now env2 - timestamp e < CACHE_TTL ->
     exists perms st1,
       getUserPermissions env1 id st = (Ok perms, st1) /\
       getUserPermissions env2 id st1 = (Ok perms, st1)) /\
  (forall u,
     cache_stale env1 id st ->
     pg_up env1 = true ->
     find (fun u => String.eqb (user_id u) id) (users st) = Some u ->
     now env1 <= now env2 ->
     now env2 - now env1 < CACHE_TTL ->
     spec_resolve_twice env1 env2 id st).
Proof.
  split; [intros c Hc Hf; by apply getUserPermissions_hit|].
  split.
  { intros u Hstale Hup Hfind.
    rewrite (getUserPermissions_miss env1 id st Hstale), Hup, Hfind.
    split; [reflexivity | apply collect_permissions_union]. }
  split.
  { intros Hstale Hno.
    rewrite (getUserPermissions_miss env1 id st Hstale).
    destruct Hno as [-> | Hnone]; [reflexivity|].
    rewrite Hnone. by destruct (pg_up env1). }
  split.
  { intros e Hclock He Hwindow.
    destruct (permissionsCache st !! cacheKey id) as [c|] eqn:Hc.
    - destruct (Z.lt_ge_cases (now env1 - timestamp c) CACHE_TTL) as [Hf|Hs].
      + (* the first call is a hit *)
        pose proof (getUserPermissions_hit env1 id st c Hc Hf) as Hrun.
        rewrite Hrun in He. cbn in He.
        assert (e = c) as -> by congruence.
        exists (permissions c), st. split; [exact Hrun|].
        by apply getUserPermissions_hit.
      + (* the entry is stale: the first call resolves *)
        assert (Hstale : cache_stale env1 id st) by (intros c' Hc'; congruence).
        pose proof (getUserPermissions_miss env1 id st Hstale) as Hrun.
        destruct (pg_up env1) eqn:Hup;
          [destruct (find _ (users st)) as [u|] eqn:Hfind|].
        * rewrite Hrun in He. cbn in He. rewrite lookup_insert_eq in He.
          injection He as <-. do 2 eexists. split; [exact Hrun|].
          by rewrite (getUserPermissions_hit env2 id _ _
                        (lookup_insert_eq _ _ _) Hwindow).
        * rewrite Hrun in He. cbn in He. assert (e = c) as -> by congruence.
          lia.
        * rewrite Hrun in He. cbn in He. assert (e = c) as -> by congruence.
          lia.
    - assert (Hstale : cache_stale env1 id st) by (intros c' Hc'; congruence).
      pose proof (getUserPermissions_miss env1 id st Hstale) as Hrun.
      destruct (pg_up env1) eqn:Hup;
        [destruct (find _ (users st)) as [u|] eqn:Hfind|].
      + rewrite Hrun in He. cbn in He. rewrite lookup_insert_eq in He.
        injection He as <-. do 2 eexists. split; [exact Hrun|].
        by rewrite (getUserPermissions_hit env2 id _ _
                      (lookup_insert_eq _ _ _) Hwindow).
      + rewrite Hrun in He. cbn in He. congruence.
      + rewrite Hrun in He. cbn in He. congruence. }
  intros u Hstale Hup Hfind Hclock Hwindow. unfold spec_resolve_twice. cbn zeta.
  rewrite (getUserPermissions_miss env1 id st Hstale), Hup, Hfind.
  cbn [snd fst].
  rewrite (getUserPermissions_hit env2 id _
             (mkEntry (collect_permissions (roles u)) (now env1))
             (lookup_insert_eq _ _ _) Hwindow).
  split; reflexivity.
Qed.

(** ** The permission gate *)

Lemma js_some_true (required : Required) (perms : list Permission) :
  js_some (required_matches required) perms = Ok true
  <-> present required perms.
Proof.
  unfold present. induction perms as [|p perms IH]; simpl.
  - split; [discriminate|]. intros (p & Hin & _). by inversion Hin.
  - destruct (required_matches required p) as [[|]|e] eqn:E.
    + split; [intros _|reflexivity]. exists p. split; [by left|].
      destruct required; simpl in E; try discriminate.
      * injection E as E. by apply String.eqb_eq in E.
      * injection E as E. apply andb_prop in E as [E1 E2].
        by apply bool_decide_eq_true in E1, E2.
    + rewrite IH. split.
      * intros (q & Hin & Hq). exists q. split; [by right | exact Hq].
      * intros (q & Hin & Hq). apply elem_of_cons in Hin as [->|Hin];
          [|by exists q].
        exfalso. destruct required; simpl in E; try done.
        -- injection E as E. apply String.eqb_neq in E. contradiction.
        -- injection E as E. destruct Hq as [H1 H2].
           rewrite !bool_decide_eq_true_2 in E by done. discriminate.
    + destruct required; try discriminate.
      split; [discriminate|]. intros (q & _ & []).
Qed.

Lemma js_every_true {A} (f : A -> outcome bool) (l : list A) :
  js_every f l = Ok true <-> forall x, x ∈ l -> f x = Ok true.
Proof.
  induction l as [|x l IH]; simpl.
  - split; [|reflexivity]. intros _ x Hin. by inversion Hin.
  - destruct (f x) as [[|]|e] eqn:E.
    + rewrite IH. split.
      * intros H y Hy. apply elem_of_cons in Hy as [->|Hy]; auto.
      * intros H y Hy. apply H. by right.
    + split; [discriminate|]. intros H.
      specialize (H x (list_elem_of_here _ _)). congruence.
    + split; [discriminate|]. intros H.
      specialize (H x (list_elem_of_here _ _)). congruence.
Qed.

(** [every] on a list without [null] never throws when asked of
    [required_matches]. *)
Lemma js_every_no_null (required : list Required) (perms : list Permission) :
  ReqNull ∉ required ->
  exists b,
    js_every (fun r => js_some (required_matches r) perms) required = Ok b.
Proof.
  assert (Hsome : forall r, r <> ReqNull ->
            exists b, js_some (required_matches r) perms = Ok b).
  { intros r Hr. induction perms as [|p perms IH]; simpl; [by eexists|].
    destruct r; simpl; try done.
    - destruct (String.eqb _ _); [by eexists | exact IH].
    - destruct (_ && _); [by eexists | exact IH]. }
  induction required as [|r required IH]; intros Hnull; simpl; [by eexists|].
  destruct (Hsome r) as [b Hb]; [intros ->; apply Hnull; by left|].
  rewrite Hb. destruct b; [|by eexists].
  apply IH. intros Hin. apply Hnull. by right.
Qed.

Lemma authorize_run (required : list Required) (env : Env) (req : Request)
    (st : State) (u : User) :
  req_user req = Some u ->
  String.eqb (role u) "admin" = false ->
  fst (authorize required env req st) =
  match js_every (fun r => js_some (required_matches r)
                                   (resolved env (user_id u) st))
                 required with
  | Ok true => Ok (Next req)
  | Ok false => Ok (Respond 403 "Insufficient permissions")
  | Throw _ => Ok (Respond 500 "Authorization failed")
  end.
Proof.
  intros Hu Hrole. unfold authorize, resolved, try_catch, bind, lift, ret.
  rewrite Hu, Hrole.
  destruct (getUserPermissions_total env (user_id u) st) as (perms & st' & ->).
  cbn [fst]. destruct (js_every _ _) as [[|]|e]; reflexivity.
Qed.

(** C2. For an authenticated identity [u] and a requirement list: an admin
    is let through whatever the list; anyone else is let through exactly
    when every entry of the list is present in the permission list
    resolved for [u]; the empty list lets everyone through; a refusal is a
    403 (a 500 only when reading a [null] entry throws). *)
Theorem authorize_decides (required : list Required) (env : Env)
    (req : Request) (st : State) (u : User) :
  req_user req = Some u ->
  (role u = "admin" -> fst (authorize required env req st) = Ok (Next req)) /\
  (role u <> "admin" ->
   (fst (authorize required env req st) = Ok (Next req)
    <-> forall r, r ∈ required -> present r (resolved env (user_id u) st))) /\
  fst (authorize [] env req st) = Ok (Next req) /\
  (role u <> "admin" ->
   ~ (forall r, r ∈ required -> present r (resolved env (user_id u) st)) ->
   ReqNull ∉ required ->
   fst (authorize required env req st)
   = Ok (Respond 403 "Insufficient permissions")).
Proof.
  intros Hu.
  assert (Hadmin : forall l, role u = "admin" ->
            fst (authorize l env req st) = Ok (Next req)).
  { intros l Hadm. unfold authorize, try_catch. rewrite Hu, Hadm. reflexivity. }
  assert (Hiff : role u <> "admin" ->
    (fst (authorize required env req st) = Ok (Next req)
     <-> forall r, r ∈ required -> present r (resolved env (user_id u) st))).
  { intros Hrole. apply String.eqb_neq in Hrole.
    rewrite (authorize_run required env req st u Hu Hrole).
    destruct (js_every _ required) as [[|]|e] eqn:E.
    - split; [intros _|reflexivity]. intros r Hr. apply js_some_true.
      revert r Hr. by apply js_every_true.
    - split; [discriminate|]. intros Hall.
      assert (js_every (fun r => js_some (required_matches r)
                (resolved env (user_id u) st)) required = Ok true); [|congruence].
      apply js_every_true. intros r Hr. apply js_some_true. by apply Hall.
    - split; [discriminate|]. intros Hall.
      assert (js_every (fun r => js_some (required_matches r)
                (resolved env (user_id u) st)) required = Ok true); [|congruence].
      apply js_every_true. intros r Hr. apply js_some_true. by apply Hall. }
  split; [apply Hadmin|]. split; [exact Hiff|]. split.
  - destruct (String.eqb_spec (role u) "admin") as [Hadm|Hrole];
      [by apply Hadmin|].
    apply String.eqb_neq in Hrole.
    rewrite (authorize_run [] env req st u Hu Hrole). reflexivity.
  - intros Hrole Hnot Hnull. pose proof (Hiff Hrole) as Hiff'.
    apply String.eqb_neq in Hrole.
    rewrite (authorize_run required env req st u Hu Hrole) in *.
    destruct (js_every_no_null required (resolved env (user_id u) st) Hnull)
      as [b Hb].
    rewrite Hb in *. destruct b; [|reflexivity].
    destruct Hnot. by apply Hiff'.
Qed.

(** C4 (as the code has it). When resolution for a non-admin identity has
    to read the store and the read throws, [getUserPermissions] swallows the
    error and returns the empty list, caching nothing; the gate then
    answers 403 to every non-empty requirement list and lets the request
    through for the empty one. *)
Theorem authorize_storage_failure (required : list Required) (env : Env)
    (req : Request) (st : State) (u : User) :
  req_user req = Some u ->
  role u <> "admin" ->
  pg_up env = false ->
  cache_stale env (user_id u) st ->
  getUserPermissions env (user_id u) st = (Ok [], tick st) /\
  fst (authorize required env req st) =
  match required with
  | [] => Ok (Next req)
  | _ :: _ => Ok (Respond 403 "Insufficient permissions")
  end.
Proof.
  intros Hu Hrole Hdown Hstale.
  pose proof (getUserPermissions_miss env (user_id u) st Hstale) as Hrun.
  rewrite Hdown in Hrun. split; [exact Hrun|].
  apply String.eqb_neq in Hrole.
  rewrite (authorize_run required env req st u Hu Hrole).
  unfold resolved. rewrite Hrun. cbn [fst].
  destruct required; reflexivity.
Qed.

(** * Runs on the small installation *)

(** The session of Alice's login is live: presented while the same salt is
    drawn again, before expiry, her token brings her identity back. *)
Lemma demo_session_is_live :
  exists req,
    fst (authenticate Demo.jwt_verify Demo.digest Demo.env_same Demo.bearer
                      Demo.st_logged) = Ok (Next req) /\
    option_map user_id (req_user req) = Some "u-alice" /\
    req_session req = Some Demo.session1.
Proof. eexists. split; [vm_compute; reflexivity|]. split; reflexivity. Qed.

(** ** C1 *)

Lemma login_then_authenticate_fresh_salt_witness :
  fst (login Demo.jwt_sign Demo.digest Demo.validate Demo.plus_24h
      Demo.env_login Demo.body
             Demo.anonymous Demo.st0)
  = Ok (mkData "u-alice" "alice@example.org" "moderator" Demo.token 86401000) /\
  fst (authenticate Demo.jwt_verify Demo.digest Demo.env_fresh Demo.bearer
                    Demo.st_logged)
  = Ok (Respond 401 "Invalid or expired token").
Proof.
  split; [vm_compute; reflexivity|].
  apply (login_then_authenticate_fresh_salt
           Demo.jwt_sign Demo.jwt_verify Demo.digest Demo.validate Demo.plus_24h
           Demo.env_login Demo.env_fresh Demo.body Demo.anonymous
           Demo.st0 Demo.st_logged
           (mkData "u-alice" "alice@example.org" "moderator" Demo.token
                   86401000)
           (mkPayload "u-alice" "" "") "10.0.0.1" "curl").
  - vm_compute. reflexivity.
  - discriminate.
  - reflexivity.
  - reflexivity.
  - reflexivity.
  - reflexivity.
  - discriminate.
  - intros s Hin. inversion Hin.
Defined.

(** ** C2 *)

Lemma authorize_decides_witness :
  fst (authorize [ReqString "routes.update"] Demo.env_fresh Demo.as_alice
                 Demo.st0) = Ok (Next Demo.as_alice) /\
  fst (authorize [ReqString "routes.delete"] Demo.env_fresh Demo.as_alice
                 Demo.st0) = Ok (Respond 403 "Insufficient permissions") /\
  fst (authorize [ReqString "routes.delete"] Demo.env_fresh Demo.as_root
                 Demo.st0) = Ok (Next Demo.as_root).
Proof.
  split; [|split].
  - destruct (authorize_decides [ReqString "routes.update"] Demo.env_fresh
                Demo.as_alice Demo.st0 Demo.alice eq_refl)
      as (_ & Hiff & _ & _).
    apply Hiff; [discriminate|].
    intros r Hr. apply list_elem_of_singleton in Hr. subst r.
    exists Demo.routes_update. split; [|reflexivity].
    vm_compute. right. left.
  - destruct (authorize_decides [ReqString "routes.delete"] Demo.env_fresh
                Demo.as_alice Demo.st0 Demo.alice eq_refl)
      as (_ & _ & _ & Hdeny).
    apply Hdeny.
    + discriminate.
    + intros Hall.
      destruct (Hall (ReqString "routes.delete")) as (p & Hp & Hname);
        [left|].
      vm_compute in Hp.
      apply elem_of_cons in Hp as [->|Hp]; [discriminate|].
      apply list_elem_of_singleton in Hp. subst p. discriminate.
    + intros Hin. apply list_elem_of_singleton in Hin. discriminate.
  - destruct (authorize_decides [ReqString "routes.delete"] Demo.env_fresh
                Demo.as_root Demo.st0 Demo.root eq_refl)
      as (Hadm & _).
    apply Hadm. reflexivity.
Defined.

(** ** C3 *)

Lemma cleanExpiredSessions_removes_strictly_expired_witness :
  pg_up Demo.env_expiry = true /\
  exists n st',
    cleanExpiredSessions Demo.env_expiry Demo.st_logged = (Ok n, st') /\
    (n + length (sessions st') = length (sessions Demo.st_logged))%nat.
Proof.
  split; [reflexivity|].
  destruct (cleanExpiredSessions_removes_strictly_expired
              Demo.env_expiry Demo.st_logged eq_refl)
    as (n & st' & Hrun & _ & _ & _ & Hlen & _).
  exists n, st'. split; [exact Hrun | exact Hlen].
Defined.

(** The row of Alice's session expires exactly at the instant of the
    sweep: the sweep leaves it and returns 0, where the specification's
    sweep removes it. *)
Lemma sweep_keeps_row_expiring_now :
  expiresAt Demo.session1 = now Demo.env_expiry /\
  Demo.session1 ∈ sessions Demo.st_logged /\
  fst (cleanExpiredSessions Demo.env_expiry Demo.st_logged) = Ok 0%nat /\
  Demo.session1
    ∈ sessions (snd (cleanExpiredSessions Demo.env_expiry Demo.st_logged)) /\
  ~ spec_sweepExpired Demo.env_expiry Demo.st_logged.
Proof.
  assert (Hkept : Demo.session1
    ∈ sessions (snd (cleanExpiredSessions Demo.env_expiry Demo.st_logged))).
  { vm_compute. left. }
  split; [reflexivity|]. split; [vm_compute; left|].
  split; [reflexivity|]. split; [exact Hkept|].
  intros (n & st' & Hrun & Hrows & _). rewrite Hrun in Hkept. cbn in Hkept.
  apply Hrows in Hkept as [_ Hlt]. vm_compute in Hlt. discriminate.
Qed.

(** ** C4 *)

Lemma authorize_storage_failure_witness :
  fst (authorize [ReqString "routes.update"] Demo.env_down Demo.as_alice
                 Demo.st0)
  = Ok (Respond 403 "Insufficient permissions") /\
  fst (authorize [] Demo.env_down Demo.as_alice Demo.st0)
  = Ok (Next Demo.as_alice).
Proof.
  assert (Hstale : cache_stale Demo.env_down "u-alice" Demo.st0).
  { intros c Hc. vm_compute in Hc. discriminate. }
  split.
  - apply (authorize_storage_failure [ReqString "routes.update"]
             Demo.env_down Demo.as_alice Demo.st0 Demo.alice eq_refl);
      [discriminate | reflexivity | exact Hstale].
  - apply (authorize_storage_failure [] Demo.env_down Demo.as_alice Demo.st0
             Demo.alice eq_refl);
      [discriminate | reflexivity | exact Hstale].
Defined.

(** PostgreSQL is down while Alice, who holds [routes.update], asks for
    it: the gate answers 403, not 500. *)
Lemma storage_failure_answers_403 :
  pg_up Demo.env_down = false /\
  fst (authorize [ReqString "routes.update"] Demo.env_down Demo.as_alice
                 Demo.st0)
  = Ok (Respond 403 "Insufficient permissions") /\
  ~ spec_storage_unavailable [ReqString "routes.update"] Demo.env_down
      Demo.as_alice Demo.st0.
Proof.
  split; [reflexivity|]. split; [vm_compute; reflexivity|].
  intros [message H]. vm_compute in H. discriminate.
Qed.

(** ** C5 *)

Lemma destroyed_session_rejected_witness :
  destroyUserSession Demo.env_fresh "sess-1" Demo.st_logged
  = (Ok 1%nat, Demo.st_destroyed) /\
  fst (authenticate Demo.jwt_verify Demo.digest Demo.env_same Demo.bearer
                    Demo.st_destroyed)
  = Ok (Respond 401 "Invalid or expired token").
Proof.
  assert (Hrun : destroyUserSession Demo.env_fresh "sess-1" Demo.st_logged
                 = (Ok 1%nat, Demo.st_destroyed)).
  { vm_compute. reflexivity. }
  split; [exact Hrun|].
  destruct (destroyed_session_rejected Demo.jwt_verify Demo.digest
              Demo.env_fresh Demo.env_same "sess-1" Demo.st_logged
              Demo.st_destroyed 1%nat Demo.token "10.0.0.1" "curl" Hrun)
    as (_ & _ & Hanswer).
  - discriminate.
  - intros s Hin _. vm_compute in Hin.
    apply list_elem_of_singleton in Hin. subst s. reflexivity.
  - apply (Hanswer (mkPayload "u-alice" "" "")); reflexivity.
Defined.

(** Alice's session destroyed, Alice switched off, Alice's session run
    out: [authenticate] gives the same answer to all three, so the answer
    to the first does not name a session that is not found. *)
Lemma destroyed_answer_is_generic :
  fst (authenticate Demo.jwt_verify Demo.digest Demo.env_same Demo.bearer
                    Demo.st_destroyed)
  = Ok (Respond 401 "Invalid or expired token") /\
  fst (authenticate Demo.jwt_verify Demo.digest Demo.env_same Demo.bearer
                    Demo.st_deactivated)
  = Ok (Respond 401 "Invalid or expired token") /\
  fst (authenticate Demo.jwt_verify Demo.digest Demo.env_expiry Demo.bearer
                    Demo.st_logged)
  = Ok (Respond 401 "Invalid or expired token") /\
  ~ answer_names_kind
      (fst (authenticate Demo.jwt_verify Demo.digest Demo.env_same Demo.bearer
                         Demo.st_destroyed))
      (fst (authenticate Demo.jwt_verify Demo.digest Demo.env_same Demo.bearer
                         Demo.st_deactivated))
      SessionNotFound /\
  ~ answer_names_kind
      (fst (authenticate Demo.jwt_verify Demo.digest Demo.env_same Demo.bearer
                         Demo.st_destroyed))
      (fst (authenticate Demo.jwt_verify Demo.digest Demo.env_expiry
                         Demo.bearer Demo.st_logged))
      SessionNotFound.
Proof.
  assert (H1 : fst (authenticate Demo.jwt_verify Demo.digest Demo.env_same
                      Demo.bearer Demo.st_destroyed)
               = Ok (Respond 401 "Invalid or expired token"))
    by (vm_compute; reflexivity).
  assert (H2 : fst (authenticate Demo.jwt_verify Demo.digest Demo.env_same
                      Demo.bearer Demo.st_deactivated)
               = Ok (Respond 401 "Invalid or expired token"))
    by (vm_compute; reflexivity).
  assert (H3 : fst (authenticate Demo.jwt_verify Demo.digest Demo.env_expiry
                      Demo.bearer Demo.st_logged)
               = Ok (Respond 401 "Invalid or expired token"))
    by (vm_compute; reflexivity).
  repeat (split; [assumption|]). rewrite H1, H2, H3.
  split; intros (kind_of & Hk & Hother); contradiction.
Qed.

(** ** C6 *)

Lemma deactivated_identity_rejected_witness :
  toggleUserStatus Demo.env_fresh Demo.as_root "u-alice" Demo.st_logged
  = (Ok (Respond 200 "User deactivated successfully"), Demo.st_deactivated) /\
  sessions Demo.st_deactivated = [Demo.session1] /\
  fst (authenticate Demo.jwt_verify Demo.digest Demo.env_same Demo.bearer
                    Demo.st_deactivated)
  = Ok (Respond 401 "Invalid or expired token").
Proof.
  assert (Hrun : toggleUserStatus Demo.env_fresh Demo.as_root "u-alice"
                   Demo.st_logged
                 = (Ok (Respond 200 "User deactivated successfully"),
                    Demo.st_deactivated)).
  { vm_compute. reflexivity. }
  split; [exact Hrun|]. split; [reflexivity|].
  destruct (deactivated_identity_rejected Demo.jwt_verify Demo.digest
              Demo.env_fresh Demo.env_same Demo.as_root "u-alice"
              Demo.st_logged Demo.st_deactivated
              (Respond 200 "User deactivated successfully")
              (touch_lastLogin 1000 Demo.alice) Demo.token "10.0.0.1" "curl"
              Hrun)
    as (_ & _ & Hanswer).
  - reflexivity.
  - reflexivity.
  - discriminate.
  - intros dec Hdec. vm_compute in Hdec. injection Hdec as <-. reflexivity.
  - apply (Hanswer (mkPayload "u-alice" "" "")); reflexivity.
Defined.

(** Alice switched off with her session unexpired, and a token that never
    had a session: [authenticate] gives the same answer to both, so the
    answer to the first does not name an inactive identity. *)
Lemma deactivated_answer_is_generic :
  sessions Demo.st_deactivated = [Demo.session1] /\
  now Demo.env_same < expiresAt Demo.session1 /\
  sessions Demo.st0 = [] /\
  fst (authenticate Demo.jwt_verify Demo.digest Demo.env_same Demo.bearer
                    Demo.st_deactivated)
  = Ok (Respond 401 "Invalid or expired token") /\
  fst (authenticate Demo.jwt_verify Demo.digest Demo.env_same Demo.bearer
                    Demo.st0)
  = Ok (Respond 401 "Invalid or expired token") /\
  ~ answer_names_kind
      (fst (authenticate Demo.jwt_verify Demo.digest Demo.env_same Demo.bearer
                         Demo.st_deactivated))
      (fst (authenticate Demo.jwt_verify Demo.digest Demo.env_same Demo.bearer
                         Demo.st0))
      IdentityInactive.
Proof.
  assert (H1 : fst (authenticate Demo.jwt_verify Demo.digest Demo.env_same
                      Demo.bearer Demo.st_deactivated)
               = Ok (Respond 401 "Invalid or expired token"))
    by (vm_compute; reflexivity).
  assert (H2 : fst (authenticate Demo.jwt_verify Demo.digest Demo.env_same
                      Demo.bearer Demo.st0)
               = Ok (Respond 401 "Invalid or expired token"))
    by (vm_compute; reflexivity).
  split; [reflexivity|]. split; [reflexivity|]. split; [reflexivity|].
  repeat (split; [assumption|]). rewrite H1, H2.
  intros (kind_of & Hk & Hother). contradiction.
Qed.

(** ** C7 *)

(** Alice's permissions are resolved at 1000 and asked for again at 2000,
    with the store down: the second call is served from the cache. An entry
    inside its TTL is returned as it is, and a call that cannot read the store
    returns the empty list. *)
Lemma getUserPermissions_cache_behaviour_witness :
  getUserPermissions Demo.env_last "u-alice" Demo.st_stale
  = (Ok [Demo.routes_read], Demo.st_stale) /\
  fst (getUserPermissions Demo.env_login "u-alice" Demo.st0)
  = Ok [Demo.routes_read; Demo.routes_update] /\
  getUserPermissions Demo.env_down "u-alice" Demo.st0
  = (Ok [], tick Demo.st0) /\
  spec_resolve_twice Demo.env_login Demo.env_down "u-alice" Demo.st0.
Proof.
  assert (Hstale0 : forall env, cache_stale env "u-alice" Demo.st0).
  { intros env c Hc. vm_compute in Hc. discriminate. }
  destruct (getUserPermissions_cache_behaviour Demo.env_last Demo.env_after
              "u-alice" Demo.st_stale) as (Hhit & _).
  destruct (getUserPermissions_cache_behaviour Demo.env_login Demo.env_down
              "u-alice" Demo.st0) as (_ & Hresolve & _ & _ & Htwice).
  destruct (getUserPermissions_cache_behaviour Demo.env_down Demo.env_fresh
              "u-alice" Demo.st0) as (_ & _ & Hfail & _).
  split.
  { apply (Hhit (mkEntry [Demo.routes_read] 1000)); reflexivity. }
  split.
  { destruct (Hresolve Demo.alice (Hstale0 _) eq_refl eq_refl) as (-> & _).
    reflexivity. }
  split.
  { apply Hfail; [apply Hstale0 | by left]. }
  apply (Htwice Demo.alice (Hstale0 _) eq_refl eq_refl); [discriminate|].
  reflexivity.
Defined.

(** Three pairs of calls, the second less than the TTL after the first and
    the users untouched in between, that are not idempotent. The store is
    down at the first call and back at the second: the empty list, then
    Alice's permissions. The identity is unknown: the empty list twice, and
    the second call reads the store again. The first call is served from an
    entry in the last millisecond of its TTL: the second resolves anew, reads
    the store and returns another list. *)
Lemma resolve_twice_not_idempotent :
  (now Demo.env_down <= now Demo.env_fresh < now Demo.env_down + CACHE_TTL /\
   fst (getUserPermissions Demo.env_down "u-alice" Demo.st0) = Ok [] /\
   fst (getUserPermissions Demo.env_fresh "u-alice"
          (snd (getUserPermissions Demo.env_down "u-alice" Demo.st0)))
   = Ok [Demo.routes_read; Demo.routes_update] /\
   ~ spec_resolve_twice Demo.env_down Demo.env_fresh "u-alice" Demo.st0) /\
  (now Demo.env_fresh <= now Demo.env_same < now Demo.env_fresh + CACHE_TTL /\
   fst (getUserPermissions Demo.env_fresh "u-nobody" Demo.st0) = Ok [] /\
   getUserPermissions Demo.env_same "u-nobody"
     (snd (getUserPermissions Demo.env_fresh "u-nobody" Demo.st0))
   = (Ok [], tick (tick Demo.st0)) /\
   ~ spec_resolve_twice Demo.env_fresh Demo.env_same "u-nobody" Demo.st0) /\
  (now Demo.env_last <= now Demo.env_after < now Demo.env_last + CACHE_TTL /\
   getUserPermissions Demo.env_last "u-alice" Demo.st_stale
   = (Ok [Demo.routes_read], Demo.st_stale) /\
   fst (getUserPermissions Demo.env_after "u-alice" Demo.st_stale)
   = Ok [Demo.routes_read; Demo.routes_update] /\
   pg_queries (snd (getUserPermissions Demo.env_after "u-alice" Demo.st_stale))
   = (pg_queries Demo.st_stale + 1)%nat /\
   ~ spec_resolve_twice Demo.env_last Demo.env_after "u-alice" Demo.st_stale).
Proof.
  split; [|split].
  - split; [vm_compute; split; [discriminate | reflexivity]|].
    split; [vm_compute; reflexivity|]. split; [vm_compute; reflexivity|].
    intros [H _]. vm_compute in H. discriminate.
  - split; [vm_compute; split; [discriminate | reflexivity]|].
    split; [vm_compute; reflexivity|]. split; [vm_compute; reflexivity|].
    intros [_ H]. vm_compute in H. discriminate.
  - split; [vm_compute; split; [discriminate | reflexivity]|].
    split; [vm_compute; reflexivity|]. split; [vm_compute; reflexivity|].
    split; [vm_compute; reflexivity|].
    intros [H _]. vm_compute in H. discriminate.
Qed.

(** ** C8 *)

Lemma requireRole_decides_witness :
  requireRole (RolesArray ["moderator"; "user"]) Demo.as_alice
  = Next Demo.as_alice /\
  requireRole (RolesArray ["moderator"; "user"]) Demo.as_root
  = Respond 403 "Insufficient role permissions".
Proof.
  split.
  - destruct (requireRole_decides Demo.alice ["moderator"; "user"]
                Demo.as_alice eq_refl) as (Hiff & _).
    apply Hiff. left.
  - destruct (requireRole_decides Demo.root ["moderator"; "user"]
                Demo.as_root eq_refl) as (_ & _ & Hadmin).
    apply Hadmin; [reflexivity|].
    intros Hin. apply elem_of_cons in Hin as [Hin|Hin]; [discriminate|].
    apply list_elem_of_singleton in Hin. discriminate.
Defined.

(** ** C9 *)

Lemma requireOwnership_decides_witness :
  fst (requireOwnership (fun _ => ret (JsString "u-alice")) Demo.as_alice
                        Demo.st0) = Ok (Next Demo.as_alice) /\
  fst (requireOwnership (fun _ => ret (JsString "u-root")) Demo.as_alice
                        Demo.st0)
  = Ok (Respond 403 "Access denied: You can only access your own resources") /\
  fst (requireOwnership (fun _ => ret (JsString "u-alice")) Demo.as_root
                        Demo.st0) = Ok (Next Demo.as_root).
Proof.
  split; [|split].
  - destruct (requireOwnership_decides Demo.alice (JsString "u-alice")
                (fun _ => ret (JsString "u-alice")) Demo.as_alice
                Demo.st0 Demo.st0 eq_refl eq_refl) as (Hiff & _).
    apply Hiff. right. reflexivity.
  - destruct (requireOwnership_decides Demo.alice (JsString "u-root")
                (fun _ => ret (JsString "u-root")) Demo.as_alice
                Demo.st0 Demo.st0 eq_refl eq_refl) as (_ & Hdeny).
    apply Hdeny. intros [Hadm|Hown]; discriminate.
  - destruct (requireOwnership_decides Demo.root (JsString "u-alice")
                (fun _ => ret (JsString "u-alice")) Demo.as_root
                Demo.st0 Demo.st0 eq_refl eq_refl) as (Hiff & _).
    apply Hiff. left. reflexivity.
Defined.

(** * Further properties of the code *)

(** ** [authenticate] and [optionalAuth], case by case *)

Section AuthExtra.

Variable jwt_sign : JwtPayload -> Z -> string.
Variable jwt_verify : string -> Z -> outcome JwtPayload.
Variable bcrypt_digest : nat -> string -> string -> string.
Variable validateLogin : LoginBody -> option string.
Variable validateRegister : RegisterBody -> option string.
Variable plus_24h_local : Z -> Z.

Lemma authenticate_cases (env : Env) (req : Request) (st : State) :
  authenticate jwt_verify bcrypt_digest env req st =
  match bearer_token req with
  | None => (Ok (Respond 401 "Access token is required"), st)
  | Some tok =>
      match jwt_verify tok (now env) with
      | Throw e =>
          (Ok (if String.eqb (exn_name e) "JsonWebTokenError"
               then Respond 401 "Invalid token"
               else if String.eqb (exn_name e) "TokenExpiredError"
               then Respond 401 "Token expired"
               else Respond 500 "Authentication failed"), st)
      | Ok dec =>
          if pg_up env then
            match find_session (bcrypt_hash bcrypt_digest 10 (salt env) tok)
                               (now env) (userId dec) (users st) (sessions st)
            with
            | None => (Ok (Respond 401 "Invalid or expired token"), tick st)
            | Some (s, u) =>
                (Ok (Next (attach req u s)),
                 set_users (update_where (userId dec)
                                         (touch_lastLogin (now env)) (users st))
                           (tick (tick st)))
            end
          else (Ok (Respond 500 "Authentication failed"), tick st)
      end
  end.
Proof.
  unfold authenticate. run_M.
  destruct (bearer_token req) as [tok|]; [|reflexivity].
  destruct (jwt_verify tok (now env)) as [dec|e].
  - destruct (pg_up env); [|reflexivity]. cbn [users sessions tick].
    destruct (find_session _ _ _ _ _) as [[s u]|]; reflexivity.
  - destruct (String.eqb (exn_name e) "JsonWebTokenError");
      [|destruct (String.eqb (exn_name e) "TokenExpiredError")]; reflexivity.
Qed.

Lemma optionalAuth_cases (env : Env) (req : Request) (st : State) :
  fst (optionalAuth jwt_verify bcrypt_digest env req st) =
  match bearer_token req with
  | None => Ok (Next req)
  | Some tok =>
      match jwt_verify tok (now env) with
      | Throw e => Ok (Next req)
      | Ok dec =>
          if pg_up env then
            match find_session (bcrypt_hash bcrypt_digest 10 (salt env) tok)
                               (now env) (userId dec) (users st) (sessions st)
            with
            | None => Ok (Next req)
            | Some (s, u) => Ok (Next (attach req u s))
            end
          else Ok (Next req)
      end
  end.
Proof.
  unfold optionalAuth. run_M.
  destruct (bearer_token req) as [tok|]; [|reflexivity].
  destruct (jwt_verify tok (now env)) as [dec|e]; [|reflexivity].
  destruct (pg_up env); [|reflexivity]. cbn [users sessions tick].
  destruct (find_session _ _ _ _ _) as [[s u]|]; reflexivity.
Qed.

(** X1. A request whose token is missing, empty or does not verify is
    refused before any statement is sent to PostgreSQL: the state is left
    as it is; the refusal is a 401, and a 500 only for a verification error
    that is neither a [JsonWebTokenError] nor a [TokenExpiredError]. *)
Theorem authenticate_refuses_before_database (env : Env) (req : Request)
    (st : State) :
  (forall tok dec, bearer_token req = Some tok ->
                   jwt_verify tok (now env) <> Ok dec) ->
  exists status message,
    authenticate jwt_verify bcrypt_digest env req st
    = (Ok (Respond status message), st) /\
    (bearer_token req = None ->
     status = 401 /\ message = "Access token is required") /\
    (status = 401 \/
     status = 500 /\
     exists tok e,
       bearer_token req = Some tok /\ jwt_verify tok (now env) = Throw e /\
       exn_name e <> "JsonWebTokenError" /\ exn_name e <> "TokenExpiredError").
Proof.
  intros Hbad. rewrite authenticate_cases.
  destruct (bearer_token req) as [tok|] eqn:Htok.
  - destruct (jwt_verify tok (now env)) as [dec|e] eqn:Hdec;
      [destruct (Hbad tok dec eq_refl Hdec)|].
    destruct (String.eqb_spec (exn_name e) "JsonWebTokenError") as [H1|H1].
    { do 2 eexists. split; [reflexivity|]. split; [discriminate | by left]. }
    destruct (String.eqb_spec (exn_name e) "TokenExpiredError") as [H2|H2].
    { do 2 eexists. split; [reflexivity|]. split; [discriminate | by left]. }
    do 2 eexists. split; [reflexivity|]. split; [discriminate|].
    right. split; [reflexivity|]. by exists tok, e.
  - do 2 eexists. split; [reflexivity|]. split; [done | by left].
Qed.

(** X2. When [authenticate] hands a request on, the identity it attached
    is the one named in the token, active, and owner of the attached
    session; that session is a stored row with the hash of the token, not
    yet expired; and all the request wrote is [lastLogin] of that identity:
    sessions and cache are as before. *)
Theorem authenticate_hands_on_the_token_identity (env : Env) (req req' : Request)
    (st : State) :
  fst (authenticate jwt_verify bcrypt_digest env req st) = Ok (Next req') ->
  exists tok dec s u,
    bearer_token req = Some tok /\
    jwt_verify tok (now env) = Ok dec /\
    req' = attach req u s /\
    s ∈ sessions st /\
    tokenHash s = bcrypt_hash bcrypt_digest 10 (salt env) tok /\
    now env < expiresAt s /\
    u ∈ users st /\
    user_id u = userId dec /\
    sess_userId s = userId dec /\
    isActive u = true /\
    sessions (snd (authenticate jwt_verify bcrypt_digest env req st))
    = sessions st /\
    permissionsCache (snd (authenticate jwt_verify bcrypt_digest env req st))
    = permissionsCache st /\
    users (snd (authenticate jwt_verify bcrypt_digest env req st))
    = update_where (userId dec) (touch_lastLogin (now env)) (users st).
Proof.
  rewrite authenticate_cases.
  destruct (bearer_token req) as [tok|]; [|discriminate].
  destruct (jwt_verify tok (now env)) as [dec|e] eqn:Hdec.
  - destruct (pg_up env); [|discriminate].
    destruct (find_session _ _ _ _ _) as [[s u]|] eqn:Hf; [|discriminate].
    cbn. intros [= <-].
    apply find_session_Some in Hf as (Hs & Hh & Ht & Hu & Hus & Hid & Hact).
    exists tok, dec, s, u. repeat (split; [done || congruence|]). reflexivity.
  - cbn. destruct (String.eqb _ _); [discriminate|].
    destruct (String.eqb _ _); discriminate.
Qed.

(** X3. [optionalAuth] attaches exactly what [authenticate] would attach:
    it hands on the request [authenticate] hands on, and the incoming
    request wherever [authenticate] answers with an error. *)
Theorem optionalAuth_agrees_with_authenticate (env : Env) (req : Request)
    (st : State) :
  fst (optionalAuth jwt_verify bcrypt_digest env req st) =
  match fst (authenticate jwt_verify bcrypt_digest env req st) with
  | Ok (Next req') => Ok (Next req')
  | _ => Ok (Next req)
  end.
Proof.
  rewrite optionalAuth_cases, authenticate_cases.
  destruct (bearer_token req) as [tok|]; [|reflexivity].
  destruct (jwt_verify tok (now env)) as [dec|e].
  - destruct (pg_up env); [|reflexivity].
    destruct (find_session _ _ _ _ _) as [[s u]|]; reflexivity.
  - cbn. destruct (String.eqb _ _); [reflexivity|].
    destruct (String.eqb _ _); reflexivity.
Qed.

(** ** Revoking every session of an identity *)

Lemma destroyAllUserSessions_Ok (env : Env) (id : string) (st st1 : State)
    (n : nat) :
  destroyAllUserSessions env id st = (Ok n, st1) ->
  users st1 = users st /\
  permissionsCache st1 = permissionsCache st /\
  sessions st1
  = List.filter (fun s => negb (String.eqb (sess_userId s) id)) (sessions st) /\
  n = length (List.filter (fun s => String.eqb (sess_userId s) id)
                          (sessions st)).
Proof.
  unfold destroyAllUserSessions. run_M.
  destruct (pg_up env); [|discriminate]. cbn. intros [= <- <-]. auto.
Qed.

(** X4. After [destroyAllUserSessions] for an identity, the rows left are
    exactly the sessions of the other identities, in their order, the
    number returned is the number of rows removed, and no later request is
    handed on by [authenticate] with that identity attached, whatever token
    it presents. *)
Theorem destroyAllUserSessions_revokes_identity (env1 env2 : Env)
    (id : string) (st st1 : State) (n : nat) :
  destroyAllUserSessions env1 id st = (Ok n, st1) ->
  (forall s, s ∈ sessions st1 <-> s ∈ sessions st /\ sess_userId s <> id) /\
  (n + length (sessions st1) = length (sessions st))%nat /\
  users st1 = users st /\
  forall req req' u,
    fst (authenticate jwt_verify bcrypt_digest env2 req st1) = Ok (Next req') ->
    req_user req' = Some u ->
    user_id u <> id.
Proof.
  intros Hrun. apply destroyAllUserSessions_Ok in Hrun as (Hus & _ & Hss & ->).
  assert (Hrows : forall s,
            s ∈ sessions st1 <-> s ∈ sessions st /\ sess_userId s <> id).
  { intros s. rewrite Hss, !list_elem_of_In, filter_In, negb_true_iff.
    by rewrite String.eqb_neq. }
  split; [exact Hrows|]. split; [rewrite Hss; apply filter_length|].
  split; [exact Hus|].
  intros req req' u Hnext Hu.
  destruct (authenticate_result jwt_verify bcrypt_digest env2 req st1)
    as (r & Hr & Hinv).
  rewrite Hnext in Hr. injection Hr as <-.
  destruct (Hinv req' eq_refl) as (tok & dec & s & v & _ & _ & Hf & ->).
  cbn in Hu. injection Hu as ->.
  apply find_session_Some in Hf as (Hs & _ & _ & _ & Hus' & _).
  apply Hrows in Hs as [_ Hne]. congruence.
Qed.

(** ** The sweep and the requests that follow it *)

Lemma cleanExpiredSessions_Ok (env : Env) (st st1 : State) (n : nat) :
  cleanExpiredSessions env st = (Ok n, st1) ->
  pg_up env = true /\
  users st1 = users st /\
  sessions st1
  = List.filter (fun s => negb (Z.ltb (expiresAt s) (now env))) (sessions st).
Proof.
  unfold cleanExpiredSessions. run_M.
  destruct (pg_up env); [|discriminate]. cbn. intros [= <- <-]. auto.
Qed.

Lemma find_session_swept (h : BcryptHash) (t t0 : Z) (uid : string)
    (us : list User) (rows : list UserSession) :
  t0 <= t ->
  find_session h t uid us
    (List.filter (fun s => negb (Z.ltb (expiresAt s) t0)) rows)
  = find_session h t uid us rows.
Proof.
  intros Hle. induction rows as [|r rows IH]; [reflexivity|].
  cbn [List.filter find_session].
  destruct (Z.ltb_spec (expiresAt r) t0) as [Hold|Hlive]; cbn [negb].
  - rewrite IH.
    replace (Z.ltb t (expiresAt r)) with false
      by (symmetry; apply Z.ltb_ge; lia).
    rewrite andb_false_r. reflexivity.
  - cbn [find_session]. rewrite IH. reflexivity.
Qed.

(** X5. The sweep is invisible to the requests that follow it: at any
    instant not before the sweep, [authenticate] and [optionalAuth] answer
    on the swept table what they would have answered on the table as it
    was. A session the sweep removes could no longer authenticate. *)
Theorem sweep_is_invisible_to_authenticate (env1 env2 : Env) (req : Request)
    (st st1 : State) (n : nat) :
  cleanExpiredSessions env1 st = (Ok n, st1) ->
  now env1 <= now env2 ->
  fst (authenticate jwt_verify bcrypt_digest env2 req st1)
  = fst (authenticate jwt_verify bcrypt_digest env2 req st) /\
  fst (optionalAuth jwt_verify bcrypt_digest env2 req st1)
  = fst (optionalAuth jwt_verify bcrypt_digest env2 req st).
Proof.
  intros Hrun Hle. apply cleanExpiredSessions_Ok in Hrun as (_ & Hus & Hss).
  rewrite !optionalAuth_cases, !authenticate_cases.
  rewrite Hus, Hss.
  destruct (bearer_token req) as [tok|]; [|split; reflexivity].
  destruct (jwt_verify tok (now env2)) as [dec|e]; [|split; reflexivity].
  rewrite (find_session_swept _ _ _ _ _ _ Hle).
  destruct (pg_up env2); [|split; reflexivity].
  destruct (find_session _ _ _ _ _) as [[s u]|]; split; reflexivity.
Qed.

Lemma filter_none {A} (p : A -> bool) (l : list A) :
  (forall x, In x l -> p x = false) ->
  List.filter p l = [] /\ List.filter (fun x => negb (p x)) l = l.
Proof.
  induction l as [|x l IH]; intros Hall; [split; reflexivity|].
  cbn [List.filter]. rewrite (Hall x (or_introl eq_refl)). cbn [negb].
  destruct IH as [-> ->]; [|split; reflexivity].
  intros y Hy. apply Hall. by right.
Qed.

(** X6. Sweeping again at an instant that is not later removes nothing and
    returns 0; and a sweep that cannot reach PostgreSQL rethrows the error
    and leaves every row in place. *)
Theorem sweep_again_removes_nothing (env1 env2 : Env) (st st1 : State)
    (n : nat) :
  cleanExpiredSessions env1 st = (Ok n, st1) ->
  now env2 <= now env1 ->
  (pg_up env2 = true ->
   exists st2,
     cleanExpiredSessions env2 st1 = (Ok 0%nat, st2) /\
     sessions st2 = sessions st1 /\ users st2 = users st1) /\
  (pg_up env2 = false ->
   exists st2,
     cleanExpiredSessions env2 st1 = (Throw connection_error, st2) /\
     sessions st2 = sessions st1 /\ users st2 = users st1).
Proof.
  intros Hrun Hle. apply cleanExpiredSessions_Ok in Hrun as (_ & _ & Hss).
  split; intros Hup.
  - rewrite (cleanExpiredSessions_run env2 st1 Hup).
    destruct (filter_none (fun s => Z.ltb (expiresAt s) (now env2))
                          (sessions st1)) as [E1 E2].
    { intros s Hs. rewrite Hss in Hs. apply filter_In in Hs as [_ Hs].
      apply negb_true_iff, Z.ltb_ge in Hs. apply Z.ltb_ge. lia. }
    rewrite E1, E2. eexists. split; [reflexivity|]. split; reflexivity.
  - unfold cleanExpiredSessions. run_M. rewrite Hup.
    eexists. split; [reflexivity|]. split; reflexivity.
Qed.

(** ** Logging in, registering, changing the password *)

Lemma login_succeeds (env : Env) (body : LoginBody) (req : Request)
    (st : State) (u : User) :
  validateLogin body = None ->
  pg_up env = true ->
  find (fun u => String.eqb (email u) (body_email body) && isActive u)
       (users st) = Some u ->
  bcrypt_compare bcrypt_digest (body_password body) (passwordHash u) = true ->
  login jwt_sign bcrypt_digest validateLogin plus_24h_local env body req st =
  (Ok (mkData (user_id u) (email u) (role u) (generateToken jwt_sign env u)
              (plus_24h_local (now env))),
   set_users
     (update_where (user_id u) (touch_lastLogin (now env)) (users st))
     (set_sessions
        (sessions st ++
         [mkSession (uuid env) (user_id u)
                    (bcrypt_hash bcrypt_digest 10 (salt env)
                                 (generateToken jwt_sign env u))
                    (req_ip req) (req_userAgent req) (plus_24h_local (now env))])%list
        (tick (tick (tick st))))).
Proof.
  intros Hval Hup Hfind Hpw. unfold login, createUserSession. run_M.
  rewrite Hval, Hup. cbn [users tick]. rewrite Hfind, Hpw. reflexivity.
Qed.

Lemma login_refused (env : Env) (body : LoginBody) (req : Request)
    (st : State) :
  validateLogin body = None ->
  pg_up env = true ->
  match find (fun u => String.eqb (email u) (body_email body) && isActive u)
             (users st) with
  | Some u =>
      bcrypt_compare bcrypt_digest (body_password body) (passwordHash u)
      = false
  | None => True
  end ->
  login jwt_sign bcrypt_digest validateLogin plus_24h_local env body req st =
  (Throw (createError "Invalid credentials" 401), tick st).
Proof.
  intros Hval Hup Hbad. unfold login, createUserSession. run_M.
  rewrite Hval, Hup. cbn [users tick].
  destruct (find _ (users st)) as [u|]; [|reflexivity].
  rewrite Hbad. reflexivity.
Qed.

(** X7. A login that passes validation while PostgreSQL answers is refused
    exactly when no active user has the email or the password does not
    match the stored hash of the one found; both refusals are the same 401
    "Invalid credentials", and neither writes a session row nor touches a
    user. *)
Theorem login_invalid_credentials (env : Env) (body : LoginBody)
    (req : Request) (st : State) :
  validateLogin body = None ->
  pg_up env = true ->
  (fst (login jwt_sign bcrypt_digest validateLogin plus_24h_local env body req st)
   = Throw (createError "Invalid credentials" 401)
   <-> forall u,
         find (fun u => String.eqb (email u) (body_email body) && isActive u)
              (users st) = Some u ->
         bcrypt_compare bcrypt_digest (body_password body) (passwordHash u)
         = false) /\
  (fst (login jwt_sign bcrypt_digest validateLogin plus_24h_local env body req st)
   = Throw (createError "Invalid credentials" 401) ->
   sessions (snd (login jwt_sign bcrypt_digest validateLogin plus_24h_local
       env body req st))
   = sessions st /\
   users (snd (login jwt_sign bcrypt_digest validateLogin plus_24h_local
       env body req st))
   = users st).
Proof.
  intros Hval Hup.
  destruct (find (fun u => String.eqb (email u) (body_email body) && isActive u)
                 (users st)) as [u|] eqn:Hfind.
  - destruct (bcrypt_compare bcrypt_digest (body_password body)
                             (passwordHash u)) eqn:Hpw.
    + rewrite (login_succeeds env body req st u Hval Hup Hfind Hpw). cbn.
      split; [|discriminate]. split; [discriminate|].
      intros H. specialize (H u eq_refl). congruence.
    + rewrite login_refused; [|done|done|by rewrite Hfind]. cbn.
      split; [|auto]. split; [|reflexivity]. intros _ v [= <-]. exact Hpw.
  - rewrite login_refused; [|done|done|by rewrite Hfind]. cbn.
    split; [|auto]. split; [|reflexivity]. intros _ v [=].
Qed.

Lemma find_app_none {A} (p : A -> bool) (l1 l2 : list A) :
  find p l1 = None -> find p (l1 ++ l2)%list = find p l2.
Proof.
  induction l1 as [|x l1 IH]; [reflexivity|]. cbn.
  destruct (p x); [discriminate | exact IH].
Qed.

Lemma find_weaken_none {A} (p q : A -> bool) (l : list A) :
  find p l = None -> find (fun x => p x && q x) l = None.
Proof.
  induction l as [|x l IH]; [reflexivity|]. cbn.
  destruct (p x); [discriminate | exact IH].
Qed.

(** What a successful registration did. *)
Lemma register_Ok (env : Env) (pwsalt : string) (body : RegisterBody)
    (req : Request) (st st1 : State) (d : LoginData) :
  register jwt_sign bcrypt_digest validateRegister plus_24h_local
      env pwsalt body req st
  = (Ok d, st1) ->
  let user := mkUser (uuid env) (reg_email body)
                (bcrypt_hash bcrypt_digest 12 pwsalt (reg_password body))
                "user" true None [] in
  pg_up env = true /\
  find (fun u => String.eqb (email u) (reg_email body)) (users st) = None /\
  existsb (fun u => String.eqb (user_id u) (uuid env)
                    || String.eqb (email u) (reg_email body)) (users st)
  = false /\
  users st1 = (users st ++ [user])%list /\
  sessions st1 =
    (sessions st ++
     [mkSession (uuid env) (uuid env)
                (bcrypt_hash bcrypt_digest 10 (salt env)
                             (generateToken jwt_sign env user))
                (req_ip req) (req_userAgent req) (plus_24h_local (now env))])%list /\
  d = mkData (uuid env) (reg_email body) "user"
             (generateToken jwt_sign env user) (plus_24h_local (now env)).
Proof.
  unfold register, createUserSession, User_create, User_findOne_email. run_M.
  destruct (validateRegister body); [discriminate|].
  destruct (pg_up env) eqn:Hup; [|discriminate].
  cbn [users tick].
  destruct (find _ (users st)) as [u|] eqn:Hfind; [discriminate|].
  cbn [users tick user_id email].
  destruct (existsb _ (users st)) eqn:Hex; cbn; [discriminate|].
  intros [= <- <-]. cbn. auto 10.
Qed.

(** X8. Registration and login compose: after a successful [POST
    /register], a login with the same email and password, whenever it
    passes validation and PostgreSQL answers, succeeds, returns the
    identity id the registration returned, with role [user], and adds a
    second session beside the one the registration opened. *)
Theorem register_then_login (env1 env2 : Env) (pwsalt : string)
    (body : RegisterBody) (req1 req2 : Request) (st st1 : State)
    (d : LoginData) :
  register jwt_sign bcrypt_digest validateRegister plus_24h_local
      env1 pwsalt body req1 st
  = (Ok d, st1) ->
  validateLogin (mkBody (reg_email body) (reg_password body)) = None ->
  pg_up env2 = true ->
  exists d2 st2,
    login jwt_sign bcrypt_digest validateLogin plus_24h_local env2
          (mkBody (reg_email body) (reg_password body)) req2 st1
    = (Ok d2, st2) /\
    data_user_id d2 = data_user_id d /\
    data_user_role d2 = "user" /\
    length (sessions st2) = S (S (length (sessions st))).
Proof.
  intros Hreg Hval Hup.
  apply register_Ok in Hreg as (_ & Hfree & _ & Hus & Hss & ->).
  set (user := mkUser (uuid env1) (reg_email body)
                 (bcrypt_hash bcrypt_digest 12 pwsalt (reg_password body))
                 "user" true None []) in *.
  assert (Hfind :
    find (fun u => String.eqb (email u) (reg_email body) && isActive u)
         (users st1) = Some user).
  { rewrite Hus, find_app_none by (by apply find_weaken_none).
    cbn. rewrite String.eqb_refl. reflexivity. }
  do 2 eexists. split.
  - apply (login_succeeds env2 (mkBody (reg_email body) (reg_password body))
             req2 st1 user Hval Hup Hfind).
    apply bcrypt_compare_hash.
  - cbn. split; [reflexivity|]. split; [reflexivity|].
    rewrite Hss, !length_app. cbn. lia.
Qed.

(** X9. Registration keeps identities apart: an email that is taken is
    refused with 409 and nothing is written; and a registration that
    succeeds leaves the ids and the emails of the user table without
    duplicates if they were so before. *)
Theorem register_keeps_emails_and_ids_unique (env : Env) (pwsalt : string)
    (body : RegisterBody) (req : Request) (st : State) :
  validateRegister body = None ->
  pg_up env = true ->
  ((exists u, u ∈ users st /\ email u = reg_email body) ->
   register jwt_sign bcrypt_digest validateRegister plus_24h_local
       env pwsalt body req st
   = (Throw (createError "Email already registered" 409), tick st)) /\
  (forall d st1,
     register jwt_sign bcrypt_digest validateRegister plus_24h_local
         env pwsalt body req st
     = (Ok d, st1) ->
     NoDup (map user_id (users st)) -> NoDup (map email (users st)) ->
     NoDup (map user_id (users st1)) /\ NoDup (map email (users st1))).
Proof.
  intros Hval Hup. split.
  - intros (u & Hin & Hmail). unfold register, User_findOne_email. run_M.
    rewrite Hval, Hup. cbn [users tick].
    destruct (find _ (users st)) as [v|] eqn:Hfind; [reflexivity|].
    apply list_elem_of_In in Hin. pose proof (find_none _ _ Hfind u Hin) as Hb.
    cbn in Hb. apply String.eqb_neq in Hb. contradiction.
  - intros d st1 Hreg Hids Hmails.
    apply register_Ok in Hreg as (_ & _ & Hex & Hus & _ & _).
    assert (Hfresh : forall u, In u (users st) ->
              user_id u <> uuid env /\ email u <> reg_email body).
    { intros u Hin.
      destruct (String.eqb (user_id u) (uuid env)
                || String.eqb (email u) (reg_email body)) eqn:Hb.
      - assert (Htrue :
          existsb (fun u => String.eqb (user_id u) (uuid env)
                            || String.eqb (email u) (reg_email body))
                  (users st) = true)
          by (apply existsb_exists; by exists u).
        congruence.
      - apply orb_false_iff in Hb as [H1 H2].
        by apply String.eqb_neq in H1, H2. }
    rewrite Hus, !map_app. cbn. split; apply NoDup_app.
    + split; [done|]. split; [|apply NoDup_singleton].
      intros x Hx Hx'. apply list_elem_of_singleton in Hx'. subst x.
      apply list_elem_of_In, in_map_iff in Hx as (u & Hu & Hin).
      by destruct (Hfresh u Hin).
    + split; [done|]. split; [|apply NoDup_singleton].
      intros x Hx Hx'. apply list_elem_of_singleton in Hx'. subst x.
      apply list_elem_of_In, in_map_iff in Hx as (u & Hu & Hin).
      by destruct (Hfresh u Hin).
Qed.

Lemma find_map_preserved {A} (p : A -> bool) (f : A -> A) (l : list A) :
  (forall x, p (f x) = p x) ->
  find p (map f l) = option_map f (find p l).
Proof.
  intros Hp. induction l as [|x l IH]; [reflexivity|]. cbn.
  rewrite Hp. destruct (p x); [reflexivity | exact IH].
Qed.

(** Once the rows of an id carry the hash of a new password, the login of
    an identity of that id goes through with it. *)
Lemma login_after_password_update (env : Env) (pwsalt mail new : string)
    (req : Request) (st st1 : State) (u : User) :
  users st1
  = update_where (user_id u)
      (put_passwordHash (bcrypt_hash bcrypt_digest 12 pwsalt new)) (users st) ->
  find (fun v => String.eqb (email v) mail && isActive v) (users st) = Some u ->
  validateLogin (mkBody mail new) = None ->
  pg_up env = true ->
  exists d st2,
    login jwt_sign bcrypt_digest validateLogin plus_24h_local
        env (mkBody mail new) req st1
    = (Ok d, st2) /\
    data_user_id d = user_id u.
Proof.
  intros Hus Hfind Hval Hup.
  assert (Hfind1 :
    find (fun v => String.eqb (email v) (body_email (mkBody mail new))
                   && isActive v) (users st1)
    = Some (put_passwordHash (bcrypt_hash bcrypt_digest 12 pwsalt new) u)).
  { rewrite Hus. unfold update_where. cbn [body_email].
    rewrite find_map_preserved, Hfind.
    - cbn. rewrite String.eqb_refl. reflexivity.
    - intros x. destruct (String.eqb (user_id x) (user_id u)); reflexivity. }
  do 2 eexists. split.
  - apply (login_succeeds env (mkBody mail new) req st1 _ Hval Hup Hfind1).
    apply bcrypt_compare_hash.
  - reflexivity.
Qed.

Lemma changePassword_Ok (env : Env) (pwsalt : string)
    (currentPassword newPassword : option string) (req : Request)
    (st st1 : State) (r : Result) :
  changePassword bcrypt_digest env pwsalt currentPassword newPassword req st
  = (Ok r, st1) ->
  exists actor current new,
    req_user req = Some actor /\
    currentPassword = Some current /\ newPassword = Some new /\
    (6 <= js_length new)%nat /\
    sessions st1 = sessions st /\
    users st1
    = update_where (user_id actor)
        (put_passwordHash (bcrypt_hash bcrypt_digest 12 pwsalt new))
        (users st).
Proof.
  unfold changePassword. run_M.
  destruct currentPassword as [[|c current]|];
    destruct newPassword as [[|c' new]|];
    cbn [truthy_string]; try discriminate.
  destruct (Nat.ltb_spec (js_length (String c' new)) 6) as [|Hlen];
    [discriminate|].
  destruct (req_user req) as [actor|]; [|discriminate].
  destruct (pg_up env); [|discriminate]. cbn [users tick].
  destruct (find _ (users st)) as [user|]; [|discriminate].
  destruct (bcrypt_compare _ _ _); cbn [negb]; [|discriminate].
  cbn. intros [= <- <-]. exists actor, (String c current), (String c' new).
  auto 10.
Qed.

(** X10. After a successful [PUT /change-password], the identity logs in
    with the new password (under the email it logs in with), and no session
    was revoked: the session table is as it was. *)
Theorem changePassword_then_login (env1 env2 : Env) (pwsalt mail new : string)
    (currentPassword : option string) (req req2 : Request) (st st1 : State)
    (r : Result) (actor u : User) :
  changePassword bcrypt_digest env1 pwsalt currentPassword (Some new) req st
  = (Ok r, st1) ->
  req_user req = Some actor ->
  find (fun v => String.eqb (email v) mail && isActive v) (users st) = Some u ->
  user_id u = user_id actor ->
  validateLogin (mkBody mail new) = None ->
  pg_up env2 = true ->
  sessions st1 = sessions st /\
  exists d st2,
    login jwt_sign bcrypt_digest validateLogin plus_24h_local
        env2 (mkBody mail new) req2 st1
    = (Ok d, st2) /\
    data_user_id d = user_id actor.
Proof.
  intros Hrun Hactor Hfind Hid Hval Hup.
  apply changePassword_Ok in Hrun
    as (actor' & current & new' & Ha & _ & Hn & _ & Hss & Hus).
  assert (actor' = actor) as -> by congruence.
  assert (new' = new) as -> by congruence.
  split; [exact Hss|]. rewrite <- Hid in *.
  eapply login_after_password_update; eauto.
Qed.

(** X11. [PUT /change-password] refuses a missing or empty password, and a
    new password whose [length] (its number of UTF-16 code units) is less
    than 6, with 400 before any statement is sent, and a wrong current
    password with 400 after reading the user; in every one of these cases
    no user row and no session row changes. *)
Theorem changePassword_refusals (env : Env) (pwsalt : string)
    (currentPassword newPassword : option string) (req : Request)
    (st : State) (actor user : User) :
  (truthy_string currentPassword = None \/ truthy_string newPassword = None ->
   changePassword bcrypt_digest env pwsalt currentPassword newPassword req st
   = (Throw (createError "Current password and new password are required"
                         400), st)) /\
  (forall current new,
     truthy_string currentPassword = Some current ->
     truthy_string newPassword = Some new ->
     (js_length new < 6)%nat ->
     changePassword bcrypt_digest env pwsalt currentPassword newPassword req st
     = (Throw (createError "New password must be at least 6 characters long"
                           400), st)) /\
  (forall current new,
     truthy_string currentPassword = Some current ->
     truthy_string newPassword = Some new ->
     (6 <= js_length new)%nat ->
     req_user req = Some actor ->
     pg_up env = true ->
     find (fun u => String.eqb (user_id u) (user_id actor)) (users st)
     = Some user ->
     bcrypt_compare bcrypt_digest current (passwordHash user) = false ->
     changePassword bcrypt_digest env pwsalt currentPassword newPassword req st
     = (Throw (createError "Current password is incorrect" 400), tick st)).
Proof.
  split; [|split].
  - unfold changePassword, throw. intros [-> | Hn]; [reflexivity|].
    rewrite Hn. destruct (truthy_string currentPassword); reflexivity.
  - unfold changePassword, throw. intros current new -> -> Hlen.
    apply Nat.ltb_lt in Hlen. rewrite Hlen. reflexivity.
  - unfold changePassword. run_M.
    intros current new -> -> Hlen Hactor Hup Hfind Hpw.
    apply Nat.ltb_ge in Hlen. rewrite Hlen, Hactor, Hup.
    cbn [users tick]. rewrite Hfind, Hpw. reflexivity.
Qed.

(** ** The users controller *)

Lemma NoDup_map_eq {A B} (f : A -> B) (l : list A) (x y : A) :
  NoDup (map f l) -> In x l -> In y l -> f x = f y -> x = y.
Proof.
  induction l as [|z l IH]; [intros _ []|].
  cbn. intros Hnd Hx Hy Hf. apply NoDup_cons in Hnd as [Hz Hnd].
  destruct Hx as [<-|Hx], Hy as [<-|Hy]; try reflexivity.
  - destruct Hz. rewrite Hf. apply list_elem_of_In. by apply in_map.
  - destruct Hz. rewrite <- Hf. apply list_elem_of_In. by apply in_map.
  - by apply IH.
Qed.

Lemma toggleUserStatus_Ok (env : Env) (req : Request) (id : string)
    (st st1 : State) (r : Result) :
  toggleUserStatus env req id st = (Ok r, st1) ->
  exists user actor,
    find (fun u => String.eqb (user_id u) id) (users st) = Some user /\
    req_user req = Some actor /\
    user_id actor <> id /\
    sessions st1 = sessions st /\
    users st1
    = update_where id (put_isActive (negb (isActive user))) (users st) /\
    r = Respond 200 (if negb (isActive user)
                     then "User activated successfully"
                     else "User deactivated successfully").
Proof.
  unfold toggleUserStatus. run_M.
  destruct (pg_up env); [|discriminate]. cbn [users tick].
  destruct (find _ (users st)) as [user|] eqn:Hfind; [|discriminate].
  destruct (req_user req) as [actor|]; [|discriminate].
  pose proof (find_some _ _ Hfind) as [_ Hid]. apply String.eqb_eq in Hid.
  destruct (String.eqb_spec (user_id actor) (user_id user)) as [|Hne];
    [discriminate|].
  cbn. intros [= <- <-]. exists user, actor. rewrite Hid in *. auto 10.
Qed.

(** X12. Toggling the status of an identity twice gives the user table
    back as it was (ids being unique, as the primary key makes them); the
    first answer says deactivated and the second activated, or the other
    way round; sessions are never touched. *)
Theorem toggleUserStatus_twice (env1 env2 : Env) (req : Request) (id : string)
    (st st1 st2 : State) (r1 r2 : Result) :
  NoDup (map user_id (users st)) ->
  toggleUserStatus env1 req id st = (Ok r1, st1) ->
  toggleUserStatus env2 req id st1 = (Ok r2, st2) ->
  users st2 = users st /\
  sessions st2 = sessions st /\
  r1 <> r2.
Proof.
  intros Hnd H1 H2.
  apply toggleUserStatus_Ok in H1 as (u & actor & Hf1 & _ & _ & Hs1 & Hu1 & ->).
  apply toggleUserStatus_Ok in H2 as (v & actor' & Hf2 & _ & _ & Hs2 & Hu2 & ->).
  pose proof (find_some _ _ Hf1) as [Hin Hid]. apply String.eqb_eq in Hid.
  assert (Hv : v = put_isActive (negb (isActive u)) u).
  { rewrite Hu1 in Hf2. unfold update_where in Hf2.
    rewrite find_map_preserved, Hf1 in Hf2.
    - cbn in Hf2. rewrite Hid, String.eqb_refl in Hf2. congruence.
    - intros x. destruct (String.eqb (user_id x) id) eqn:E; [|done].
      cbn. exact E. }
  split; [|split].
  - rewrite Hu2, Hu1, Hv. cbn [isActive put_isActive]. rewrite negb_involutive.
    unfold update_where. rewrite map_map. rewrite <- (map_id (users st)) at 2.
    apply map_ext_in. intros x Hx.
    destruct (String.eqb_spec (user_id x) id) as [Hx'|Hx'].
    + cbn. rewrite Hx', String.eqb_refl.
      assert (x = u) as -> by (apply (NoDup_map_eq user_id (users st));
                               [done|done|done|congruence]).
      by destruct u.
    + apply String.eqb_neq in Hx'. by rewrite Hx'.
  - congruence.
  - rewrite Hv. cbn. destruct (isActive u); cbn; discriminate.
Qed.

Lemma deleteUser_Ok (env : Env) (req : Request) (id : string)
    (st st1 : State) (r : Result) :
  deleteUser env req id st = (Ok r, st1) ->
  exists actor,
    req_user req = Some actor /\
    user_id actor <> id /\
    users st1
    = List.filter (fun u => negb (String.eqb (user_id u) id)) (users st) /\
    sessions st1
    = List.filter (fun s => negb (String.eqb (sess_userId s) id))
                  (sessions st).
Proof.
  unfold deleteUser, User_destroy. run_M.
  destruct (pg_up env); [|discriminate]. cbn [users tick].
  destruct (find _ (users st)) as [user|] eqn:Hfind; [|discriminate].
  destruct (req_user req) as [actor|]; [|discriminate].
  pose proof (find_some _ _ Hfind) as [_ Hid]. apply String.eqb_eq in Hid.
  destruct (String.eqb_spec (user_id actor) (user_id user)) as [|Hne];
    [discriminate|].
  cbn. intros [= <- <-]. exists actor. rewrite Hid in *. auto.
Qed.

Lemma filter_update_where_other (id aid : string) (f : User -> User)
    (us : list User) :
  id <> aid ->
  (forall u, user_id (f u) = user_id u) ->
  List.filter (fun u => String.eqb (user_id u) aid) (update_where id f us)
  = List.filter (fun u => String.eqb (user_id u) aid) us.
Proof.
  intros Hne Hf. unfold update_where.
  induction us as [|x l IH]; [reflexivity|]. cbn.
  destruct (String.eqb_spec (user_id x) id) as [Hx|Hx].
  - rewrite Hf, Hx.
    replace (String.eqb id aid) with false
      by (symmetry; by apply String.eqb_neq).
    exact IH.
  - destruct (String.eqb (user_id x) aid); [f_equal|]; exact IH.
Qed.

Lemma filter_delete_other (id aid : string) (us : list User) :
  id <> aid ->
  List.filter (fun u => String.eqb (user_id u) aid)
    (List.filter (fun u => negb (String.eqb (user_id u) id)) us)
  = List.filter (fun u => String.eqb (user_id u) aid) us.
Proof.
  intros Hne. induction us as [|x l IH]; [reflexivity|]. cbn.
  destruct (String.eqb_spec (user_id x) id) as [Hx|Hx]; cbn.
  - rewrite Hx.
    replace (String.eqb id aid) with false
      by (symmetry; by apply String.eqb_neq).
    exact IH.
  - destruct (String.eqb (user_id x) aid); [f_equal|]; exact IH.
Qed.

(** X13. An admin cannot lock themselves out through [toggleUserStatus]
    or [deleteUser]: whatever id the request names and however it ends, the
    rows of the acting identity are in the user table afterwards exactly as
    they were before. *)
Theorem acting_identity_is_never_toggled_or_deleted (env : Env)
    (req : Request) (id : string) (st : State) (actor : User) :
  req_user req = Some actor ->
  List.filter (fun u => String.eqb (user_id u) (user_id actor))
              (users (snd (toggleUserStatus env req id st)))
  = List.filter (fun u => String.eqb (user_id u) (user_id actor)) (users st) /\
  List.filter (fun u => String.eqb (user_id u) (user_id actor))
              (users (snd (deleteUser env req id st)))
  = List.filter (fun u => String.eqb (user_id u) (user_id actor)) (users st).
Proof.
  intros Hactor. split.
  - unfold toggleUserStatus. run_M.
    destruct (pg_up env); [|reflexivity]. cbn [users tick].
    destruct (find _ (users st)) as [user|] eqn:Hfind; [|reflexivity].
    rewrite Hactor.
    destruct (String.eqb_spec (user_id actor) (user_id user)) as [|Hne];
      [reflexivity|].
    cbn. apply filter_update_where_other; [congruence | reflexivity].
  - unfold deleteUser, User_destroy. run_M.
    destruct (pg_up env); [|reflexivity]. cbn [users tick].
    destruct (find _ (users st)) as [user|] eqn:Hfind; [|reflexivity].
    rewrite Hactor.
    destruct (String.eqb_spec (user_id actor) (user_id user)) as [|Hne];
      [reflexivity|].
    cbn. apply filter_delete_other. congruence.
Qed.

(** X14. After a successful [deleteUser], the identity is gone with every
    session it had, the other users and their sessions are as they were,
    and no later request is handed on by [authenticate] with the deleted
    id, whatever token it presents. *)
Theorem deleteUser_revokes_identity (env1 env2 : Env) (req : Request)
    (id : string) (st st1 : State) (r : Result) :
  deleteUser env1 req id st = (Ok r, st1) ->
  (forall u, u ∈ users st1 <-> u ∈ users st /\ user_id u <> id) /\
  (forall s, s ∈ sessions st1 <-> s ∈ sessions st /\ sess_userId s <> id) /\
  forall req2 req' u,
    fst (authenticate jwt_verify bcrypt_digest env2 req2 st1) = Ok (Next req') ->
    req_user req' = Some u ->
    user_id u <> id.
Proof.
  intros Hrun. apply deleteUser_Ok in Hrun as (actor & _ & _ & Hus & Hss).
  assert (Husers : forall u, u ∈ users st1 <-> u ∈ users st /\ user_id u <> id).
  { intros u. rewrite Hus, !list_elem_of_In, filter_In, negb_true_iff.
    by rewrite String.eqb_neq. }
  split; [exact Husers|]. split.
  - intros s. rewrite Hss, !list_elem_of_In, filter_In, negb_true_iff.
    by rewrite String.eqb_neq.
  - intros req2 req' u Hnext Hu.
    destruct (authenticate_result jwt_verify bcrypt_digest env2 req2 st1)
      as (r' & Hr & Hinv).
    rewrite Hnext in Hr. injection Hr as <-.
    destruct (Hinv req' eq_refl) as (tok & dec & s & v & _ & _ & Hf & ->).
    cbn in Hu. injection Hu as ->.
    apply find_session_Some in Hf as (_ & _ & _ & Hin & _).
    by apply Husers in Hin as [_ Hne].
Qed.

(** X15. [updateUser] gives a caller who is not an admin no hold on roles
    or on the active flag: whatever id and body the request carries and
    however it ends, [role] and [isActive] of every user are afterwards
    what they were (ids being unique), and the sessions are untouched; and
    for another identity's id the request is refused with 403. *)
Theorem updateUser_never_escalates (env : Env) (req : Request) (id : string)
    (body : UpdateBody) (st : State) (actor : User) :
  req_user req = Some actor ->
  role actor <> "admin" ->
  NoDup (map user_id (users st)) ->
  map (fun u => (user_id u, role u, isActive u))
      (users (snd (updateUser env req id body st)))
  = map (fun u => (user_id u, role u, isActive u)) (users st) /\
  sessions (snd (updateUser env req id body st)) = sessions st /\
  (pg_up env = true -> user_id actor <> id ->
   (exists u, u ∈ users st /\ user_id u = id) ->
   fst (updateUser env req id body st)
   = Throw (createError "Access denied" 403)).
Proof.
  intros Hactor Hrole Hnd. apply String.eqb_neq in Hrole.
  unfold updateUser, apply_update, instance_changed. run_M.
  rewrite Hactor, Hrole.
  destruct (pg_up env) eqn:Hup; [|split; [reflexivity|split;
                                          [reflexivity|discriminate]]].
  cbn [users tick].
  destruct (find _ (users st)) as [user|] eqn:Hfind.
  - pose proof (find_some _ _ Hfind) as [Hin Hid]. apply String.eqb_eq in Hid.
    destruct (String.eqb_spec (user_id actor) (user_id user)) as [Hself|Hne];
      cbn [negb andb].
    + rewrite String.eqb_refl, Bool.eqb_reflx. cbn [negb orb].
      destruct (upd_profile body); cbn; rewrite ?Hup; cbn.
      * split; [|split; [reflexivity | congruence]].
        rewrite map_map. apply map_ext_in. intros v Hv.
        destruct (String.eqb_spec (user_id v) (user_id user)) as [Hv'|];
          [|reflexivity].
        by rewrite (NoDup_map_eq user_id (users st) v user Hnd Hv Hin Hv').
      * split; [reflexivity|]. split; [reflexivity | congruence].
    + cbn. split; [reflexivity|]. split; reflexivity.
  - cbn. split; [reflexivity|]. split; [reflexivity|].
    intros _ _ (u & Hu & Hidu). apply list_elem_of_In in Hu.
    pose proof (find_none _ _ Hfind u Hu) as Hb. cbn in Hb.
    apply String.eqb_neq in Hb. contradiction.
Qed.

Lemma changeUserPassword_Ok (env : Env) (pwsalt id : string)
    (newPassword : option string) (st st1 : State) (r : Result) :
  changeUserPassword bcrypt_digest env pwsalt id newPassword st = (Ok r, st1) ->
  exists new,
    newPassword = Some new /\
    (6 <= js_length new)%nat /\
    sessions st1 = sessions st /\
    users st1
    = update_where id
        (put_passwordHash (bcrypt_hash bcrypt_digest 12 pwsalt new))
        (users st).
Proof.
  unfold changeUserPassword. run_M.
  destruct newPassword as [[|c new]|]; cbn [truthy_string]; try discriminate.
  destruct (Nat.ltb_spec (js_length (String c new)) 6) as [|Hlen];
    [discriminate|].
  destruct (pg_up env); [|discriminate]. cbn [users tick].
  destruct (find _ (users st)) as [user|] eqn:Hfind; [|discriminate].
  pose proof (find_some _ _ Hfind) as [_ Hid]. apply String.eqb_eq in Hid.
  cbn. intros [= <- <-]. exists (String c new). rewrite Hid. auto.
Qed.

(** X16. After an admin has set a password with [PUT /:id/password], the
    identity of that id logs in with it (under the email it logs in with);
    the [length] of the password (its number of UTF-16 code units) is at
    least 6, and the sessions the identity had stay in place. *)
Theorem changeUserPassword_then_login (env1 env2 : Env)
    (pwsalt mail new : string) (req2 : Request) (st st1 : State)
    (r : Result) (u : User) :
  changeUserPassword bcrypt_digest env1 pwsalt (user_id u) (Some new) st
  = (Ok r, st1) ->
  find (fun v => String.eqb (email v) mail && isActive v) (users st) = Some u ->
  validateLogin (mkBody mail new) = None ->
  pg_up env2 = true ->
  (6 <= js_length new)%nat /\
  sessions st1 = sessions st /\
  exists d st2,
    login jwt_sign bcrypt_digest validateLogin plus_24h_local
        env2 (mkBody mail new) req2 st1
    = (Ok d, st2) /\
    data_user_id d = user_id u.
Proof.
  intros Hrun Hfind Hval Hup.
  apply changeUserPassword_Ok in Hrun as (new' & Hn & Hlen & Hss & Hus).
  assert (new' = new) as -> by congruence.
  split; [exact Hlen|]. split; [exact Hss|].
  eapply login_after_password_update; eauto.
Qed.

End AuthExtra.

(** ** The permission cache and its users *)

Lemma cacheKey_inj (a b : string) : cacheKey a = cacheKey b -> a = b.
Proof. unfold cacheKey. intros H. vm_compute in H. congruence. Qed.

Lemma js_some_object (resource action : string) (perms : list Permission) :
  js_some (required_matches (ReqObject (Some resource) (Some action))) perms
  = Ok (existsb (fun p => String.eqb (perm_resource p) resource
                          && String.eqb (perm_action p) action) perms).
Proof.
  induction perms as [|p perms IH]; [reflexivity|]. cbn.
  destruct (String.eqb_spec (perm_resource p) resource) as [Hr|Hr].
  - rewrite (bool_decide_eq_true_2 _ (f_equal Some Hr)).
    destruct (String.eqb_spec (perm_action p) action) as [Ha|Ha].
    + rewrite (bool_decide_eq_true_2 _ (f_equal Some Ha)). reflexivity.
    + rewrite (bool_decide_eq_false_2 (Some (perm_action p) = Some action))
        by congruence.
      exact IH.
  - rewrite (bool_decide_eq_false_2 (Some (perm_resource p) = Some resource))
      by congruence.
    exact IH.
Qed.

Lemma hasPermission_run (env : Env) (id resource action : string)
    (st : State) :
  fst (hasPermission env id resource action st)
  = Ok (existsb (fun p => String.eqb (perm_resource p) resource
                          && String.eqb (perm_action p) action)
                (resolved env id st)).
Proof.
  unfold hasPermission, resolved, try_catch, bind, ret.
  destruct (getUserPermissions_total env id st) as (perms & st' & ->).
  reflexivity.
Qed.

(** X17. [hasPermission] never throws, and for an identity that is not an
    admin it says yes exactly when the permission gate lets a request
    through that requires that one (resource, action) pair; for an admin
    the gate lets the request through whatever [hasPermission] says. *)
Theorem hasPermission_agrees_with_authorize (env : Env) (req : Request)
    (st : State) (u : User) (resource action : string) :
  req_user req = Some u ->
  (exists b,
     fst (hasPermission env (user_id u) resource action st) = Ok b) /\
  (role u <> "admin" ->
   (fst (hasPermission env (user_id u) resource action st) = Ok true
    <-> fst (authorize [ReqObject (Some resource) (Some action)] env req st)
        = Ok (Next req))) /\
  (role u = "admin" ->
   fst (authorize [ReqObject (Some resource) (Some action)] env req st)
   = Ok (Next req)).
Proof.
  intros Hu. rewrite hasPermission_run. split; [by eexists|]. split.
  - intros Hrole. apply String.eqb_neq in Hrole.
    rewrite (authorize_run _ env req st u Hu Hrole). cbn [js_every].
    rewrite js_some_object.
    destruct (existsb _ _); split; congruence.
  - intros Hadm. unfold authorize, try_catch. rewrite Hu, Hadm. reflexivity.
Qed.

(** X18. [clearPermissionsCache(id)] with a non-empty id removes the entry
    of that identity and of no other; the next resolution for it reads the
    store and, when the user is found, returns the union of the roles it
    has now. Called with no id, or with the empty string, it empties the
    whole cache. *)
Theorem clearPermissionsCache_forgets (env : Env) (id : string) (st : State) :
  id <> "" ->
  permissionsCache (snd (clearPermissionsCache (Some id) st)) !! cacheKey id
  = None /\
  (forall other, other <> id ->
     permissionsCache (snd (clearPermissionsCache (Some id) st))
       !! cacheKey other
     = permissionsCache st !! cacheKey other) /\
  (forall u,
     pg_up env = true ->
     find (fun u => String.eqb (user_id u) id) (users st) = Some u ->
     fst (getUserPermissions env id (snd (clearPermissionsCache (Some id) st)))
     = Ok (collect_permissions (roles u))) /\
  permissionsCache (snd (clearPermissionsCache None st)) = ∅ /\
  permissionsCache (snd (clearPermissionsCache (Some "") st)) = ∅.
Proof.
  intros Hne.
  assert (Hrun : clearPermissionsCache (Some id) st
                 = (Ok tt, set_cache (delete (cacheKey id) (permissionsCache st))
                                     st)).
  { unfold clearPermissionsCache. destruct id; [congruence | reflexivity]. }
  rewrite Hrun. cbn [snd].
  split; [apply lookup_delete_eq|]. split; [|split].
  - intros other Hother. cbn. apply lookup_delete_ne.
    intros Heq. apply cacheKey_inj in Heq. congruence.
  - intros u Hup Hfind. rewrite getUserPermissions_miss.
    + rewrite Hup. cbn [users set_cache]. rewrite Hfind. reflexivity.
    + intros c Hc. cbn in Hc. rewrite lookup_delete_eq in Hc. discriminate.
  - split; reflexivity.
Qed.

(** X19. Nothing in the store invalidates a cached permission list: while
    the entry of a non-admin identity is inside its TTL, the permission
    gate lets through every request whose requirements the cached list
    meets, whatever the user and role tables have become in the meantime,
    and without a statement to PostgreSQL. *)
Theorem cached_grants_outlive_the_store (required : list Required)
    (env : Env) (req : Request) (st : State) (u : User) (c : CacheEntry)
    (us : list User) :
  req_user req = Some u ->
  role u <> "admin" ->
  permissionsCache st !! cacheKey (user_id u) = Some c ->
  now env - timestamp c < CACHE_TTL ->
  (forall r, r ∈ required -> present r (permissions c)) ->
  authorize required env req (set_users us st)
  = (Ok (Next req), set_users us st).
Proof.
  intros Hu Hrole Hc Hfresh Hall. apply String.eqb_neq in Hrole.
  unfold authorize, try_catch, bind, lift, ret. rewrite Hu, Hrole.
  rewrite (getUserPermissions_hit env (user_id u) (set_users us st) c Hc Hfresh).
  assert (js_every (fun r => js_some (required_matches r) (permissions c))
                   required = Ok true) as ->.
  { apply js_every_true. intros r Hr. apply js_some_true. by apply Hall. }
  reflexivity.
Qed.

(** X20. Resolving the permissions of one identity never changes the
    cache entry of another, and a resolution that finds no user or cannot
    read the store caches nothing at all. *)
Theorem getUserPermissions_touches_one_entry (env : Env) (id : string)
    (st : State) :
  (forall other, other <> id ->
     permissionsCache (snd (getUserPermissions env id st)) !! cacheKey other
     = permissionsCache st !! cacheKey other) /\
  (pg_up env = false \/
   find (fun u => String.eqb (user_id u) id) (users st) = None ->
   permissionsCache (snd (getUserPermissions env id st))
   = permissionsCache st).
Proof.
  assert (Hcases :
    getUserPermissions env id st = (fst (getUserPermissions env id st), st) \/
    cache_stale env id st).
  { destruct (permissionsCache st !! cacheKey id) as [c|] eqn:Hc.
    - destruct (Z.lt_ge_cases (now env - timestamp c) CACHE_TTL) as [Hf|Hs].
      + left. by rewrite (getUserPermissions_hit env id st c Hc Hf).
      + right. intros c' Hc'. congruence.
    - right. intros c' Hc'. congruence. }
  destruct Hcases as [Hhit|Hstale].
  - rewrite Hhit. split; reflexivity.
  - rewrite (getUserPermissions_miss env id st Hstale). split.
    + intros other Hother. destruct (pg_up env); [|reflexivity].
      destruct (find _ (users st)); [|reflexivity].
      cbn. apply lookup_insert_ne. intros Heq. apply cacheKey_inj in Heq.
      congruence.
    + intros [-> | ->]; [reflexivity|]. destruct (pg_up env); reflexivity.
Qed.

(** ** The admin routes *)

(** X21. Behind [requireRole('admin')], the permission gate of the admin
    routes decides nothing: the request reaches the handler exactly when
    the identity's role is [admin], whatever permissions the route lists
    and whatever the identity holds; anyone else gets the 403 of the role
    gate; and neither the store nor the cache is consulted. *)
Theorem admin_route_is_the_role_gate (required : list Required) (env : Env)
    (req : Request) (st : State) (u : User) :
  req_user req = Some u ->
  (fst (admin_route required env req st) = Ok (Next req) <-> role u = "admin") /\
  (role u <> "admin" ->
   fst (admin_route required env req st)
   = Ok (Respond 403 "Insufficient role permissions")) /\
  snd (admin_route required env req st) = st.
Proof.
  intros Hu. unfold admin_route, requireRole. rewrite Hu. cbn [existsb].
  destruct (String.eqb_spec (role u) "admin") as [Hadm|Hrole]; cbn.
  - unfold authorize, try_catch. rewrite Hu, Hadm. cbn. tauto.
  - split; [split; [discriminate | contradiction]|]. split; reflexivity.
Qed.

(** ** [requireAny] *)

Lemma async_guard_never_fails (g : Request -> M Result) :
  never_fails (async_guard g).
Proof.
  intros req st error. unfold async_guard.
  destruct (g req st) as [[[r|s m]|e] st']; discriminate.
Qed.

Lemma sync_guard_never_fails (g : Request -> Result) :
  never_fails (sync_guard g).
Proof.
  intros req st error. unfold sync_guard. destruct (g req); discriminate.
Qed.

(** X22. [requireAny] goes on to a later middleware only after an earlier
    one has called [next(err)] or thrown: what follows a middleware that
    never does so is never consulted. The guards of this file never do, so
    [requireAny] over them ends as its first guard ends, and a request the
    first guard refuses is not offered to the others. *)
Theorem requireAny_stops_at_a_guard (m : Middleware)
    (before after1 after2 : list Middleware) (lastError : option Exn)
    (req : Request) (st : State) :
  never_fails m ->
  requireAny_from lastError (before ++ m :: after1)%list req st
  = requireAny_from lastError (before ++ m :: after2)%list req st /\
  (forall status message,
     fst (fst (m req st)) = Answers status message ->
     fst (requireAny (m :: after1) req st) = AnyAnswered status message).
Proof.
  intros Hm. split.
  - revert lastError req st.
    induction before as [|b before IH]; intros lastError req st; cbn.
    + pose proof (Hm req st) as Hne.
      destruct (m req st) as [[[ | error | status message | ] req'] st'];
        try reflexivity.
      destruct (Hne error). reflexivity.
    + destruct (b req st) as [[[ | error | status message | ] req'] st'];
        try reflexivity.
      apply IH.
  - intros status message Hans. unfold requireAny. cbn.
    destruct (m req st) as [[sig req'] st']. cbn in Hans. subst sig.
    reflexivity.
Qed.

(** ** Logging out *)

Section LogoutExtra.

Variable jwt_verify : string -> Z -> outcome JwtPayload.
Variable bcrypt_digest : nat -> string -> string -> string.

(** X23. [POST /logout] passes on the refusal of [authenticate] and then
    destroys nothing; when [authenticate] hands the request on, it answers
    200 and the session table loses exactly the rows with the id of the
    session that authenticated the request. *)
Theorem logout_destroys_the_presented_session (env : Env) (req : Request)
    (st : State) :
  match fst (authenticate jwt_verify bcrypt_digest env req st) with
  | Ok (Next req') =>
      exists s,
        req_session req' = Some s /\
        s ∈ sessions st /\
        fst (logout jwt_verify bcrypt_digest env req st)
        = Ok (Respond 200 "Logout successful") /\
        forall s',
          s' ∈ sessions (snd (logout jwt_verify bcrypt_digest env req st))
          <-> s' ∈ sessions st /\ sess_id s' <> sess_id s
  | Ok (Respond status message) =>
      fst (logout jwt_verify bcrypt_digest env req st)
      = Ok (Respond status message) /\
      sessions (snd (logout jwt_verify bcrypt_digest env req st))
      = sessions st
  | Throw _ => False
  end.
Proof.
  unfold logout, bind. rewrite (authenticate_cases jwt_verify bcrypt_digest).
  destruct (bearer_token req) as [tok|]; [|split; reflexivity].
  destruct (jwt_verify tok (now env)) as [dec|e].
  - destruct (pg_up env) eqn:Hup; [|split; reflexivity].
    destruct (find_session _ _ _ _ _) as [[s u]|] eqn:Hf; [|split; reflexivity].
    cbn [fst attach req_session]. exists s.
    apply find_session_Some in Hf as (Hs & _).
    split; [reflexivity|]. split; [exact Hs|].
    unfold destroyUserSession. run_M. rewrite Hup. cbn.
    split; [reflexivity|].
    intros s'. rewrite !list_elem_of_In, filter_In, negb_true_iff.
    by rewrite String.eqb_neq.
  - cbn [fst]. destruct (String.eqb _ _); [split; reflexivity|].
    destruct (String.eqb _ _); split; reflexivity.
Qed.

End LogoutExtra.


(** ** The header, the status flag and the login *)

Section HeaderAndStatus.

Variable jwt_sign : JwtPayload -> Z -> string.
Variable jwt_verify : string -> Z -> outcome JwtPayload.
Variable bcrypt_digest : nat -> string -> string -> string.
Variable validateLogin : LoginBody -> option string.
Variable plus_24h_local : Z -> Z.

(** X24. The [Bearer] scheme is not required: a request that puts the raw
    token in the [Authorization] header (a token in which ['Bearer '] does
    not occur) is treated by [authenticate] exactly as the request that
    puts ['Bearer '] in front of it: same state afterwards, same refusal,
    same identity and session attached. *)
Theorem bearer_prefix_is_optional (env : Env) (st : State)
    (tok ip ua : string) :
  js_replace "Bearer " "" tok = tok ->
  let raw := mkRequest (Some tok) ip ua None None in
  let prefixed := mkRequest (Some ("Bearer " +:+ tok)) ip ua None None in
  snd (authenticate jwt_verify bcrypt_digest env raw st)
  = snd (authenticate jwt_verify bcrypt_digest env prefixed st) /\
  (forall status message,
     fst (authenticate jwt_verify bcrypt_digest env raw st)
     = Ok (Respond status message)
     <-> fst (authenticate jwt_verify bcrypt_digest env prefixed st)
         = Ok (Respond status message)) /\
  (forall u s,
     fst (authenticate jwt_verify bcrypt_digest env raw st)
     = Ok (Next (attach raw u s))
     <-> fst (authenticate jwt_verify bcrypt_digest env prefixed st)
         = Ok (Next (attach prefixed u s))).
Proof.
  intros Hraw raw prefixed.
  assert (Htok : bearer_token raw = bearer_token prefixed).
  { unfold bearer_token, raw, prefixed. cbn [authorization].
    rewrite Hraw, js_replace_prefix. reflexivity. }
  rewrite !authenticate_cases, Htok.
  assert (Hrefusal : forall (r : Result) (st' : State),
    (forall req', r <> Next req') ->
    snd (Ok r, st') = snd (Ok r, st') /\
    (forall status message,
       fst (Ok r, st') = Ok (Respond status message)
       <-> fst (Ok r, st') = Ok (Respond status message)) /\
    (forall u s,
       fst (Ok r, st') = Ok (Next (attach raw u s))
       <-> fst (Ok r, st') = Ok (Next (attach prefixed u s)))).
  { intros r st' Hr. split; [reflexivity|]. split; [reflexivity|].
    intros u s. cbn. split; intros [= H]; destruct (Hr _ H). }
  destruct (bearer_token prefixed) as [t|]; [|by apply Hrefusal].
  destruct (jwt_verify t (now env)) as [dec|e].
  - destruct (pg_up env); [|by apply Hrefusal].
    destruct (find_session _ _ _ _ _) as [[s0 u0]|]; [|by apply Hrefusal].
    cbn. split; [reflexivity|]. split.
    + intros status message. split; discriminate.
    + intros u s.
      split; intros [= <- <-]; reflexivity.
  - destruct (String.eqb (exn_name e) "JsonWebTokenError");
      [|destruct (String.eqb (exn_name e) "TokenExpiredError")];
      by apply Hrefusal.
Qed.

Lemma find_all_false {A} (p : A -> bool) (l : list A) :
  (forall x, In x l -> p x = false) -> find p l = None.
Proof.
  intros Hall. destruct (find p l) as [x|] eqn:E; [|reflexivity].
  apply find_some in E as [Hin Hp]. rewrite (Hall x Hin) in Hp. discriminate.
Qed.

(** X25. An identity that [toggleUserStatus] has switched off cannot log
    in: with its email it gets the 401 "Invalid credentials" of a wrong
    password, whatever password it sends, and no session is opened. *)
Theorem deactivated_identity_cannot_login (env1 env2 : Env)
    (req1 req2 : Request) (id : string) (st st1 : State) (r : Result)
    (target : User) (body : LoginBody) :
  toggleUserStatus env1 req1 id st = (Ok r, st1) ->
  find (fun u => String.eqb (user_id u) id) (users st) = Some target ->
  isActive target = true ->
  (forall v, v ∈ users st -> email v = body_email body -> user_id v = id) ->
  validateLogin body = None ->
  pg_up env2 = true ->
  login jwt_sign bcrypt_digest validateLogin plus_24h_local env2 body req2 st1
  = (Throw (createError "Invalid credentials" 401), tick st1) /\
  sessions st1 = sessions st.
Proof.
  intros Hrun Hfind Hact Hmail Hval Hup.
  destruct (toggleUserStatus_deactivates _ _ _ _ _ _ _ Hrun Hfind Hact)
    as (_ & Hss & Hoff).
  apply toggleUserStatus_Ok in Hrun as (u & _ & _ & _ & _ & _ & Hus & _).
  split; [|exact Hss].
  apply login_refused; [exact Hval | exact Hup|].
  rewrite find_all_false; [exact I|].
  intros x Hx. apply andb_false_iff.
  destruct (String.eqb_spec (email x) (body_email body)) as [Hx'|];
    [right | by left].
  apply Hoff; [by apply list_elem_of_In|].
  rewrite Hus in Hx. unfold update_where in Hx.
  apply in_map_iff in Hx as (v & Hv & Hin).
  assert (Hidv : user_id v = id).
  { apply Hmail; [by apply list_elem_of_In|].
    rewrite <- Hx', <- Hv. destruct (String.eqb (user_id v) id); reflexivity. }
  rewrite <- Hv, Hidv, String.eqb_refl. exact Hidv.
Qed.


End HeaderAndStatus.

(** X27. What [toggleUserStatus] refuses, [updateUser] does: an admin's
    [PUT /:id] with [isActive] and [role] in the body is applied to the
    row of that id, the admin's own row included, and to no other row. *)
Theorem updateUser_by_admin_applies (env : Env) (req : Request) (id : string)
    (body : UpdateBody) (st : State) (actor user : User) :
  req_user req = Some actor ->
  role actor = "admin" ->
  pg_up env = true ->
  NoDup (map user_id (users st)) ->
  find (fun u => String.eqb (user_id u) id) (users st) = Some user ->
  fst (updateUser env req id body st)
  = Ok (Respond 200 "User updated successfully") /\
  (forall v, v ∈ users (snd (updateUser env req id body st)) ->
     user_id v = id ->
     role v = default (role user) (upd_role body) /\
     isActive v = default (isActive user) (upd_isActive body)) /\
  List.filter (fun u => negb (String.eqb (user_id u) id))
              (users (snd (updateUser env req id body st)))
  = List.filter (fun u => negb (String.eqb (user_id u) id)) (users st).
Proof.
  intros Hactor Hadm Hup Hnd Hfind.
  pose proof (find_some _ _ Hfind) as [Hin Hid]. apply String.eqb_eq in Hid.
  unfold updateUser. run_M. rewrite Hup. cbn [users tick].
  rewrite Hfind, Hactor, Hadm. cbn [String.eqb negb andb].
  assert (Hsaved :
    role (apply_update actor body user) = default (role user) (upd_role body)
    /\ isActive (apply_update actor body user)
       = default (isActive user) (upd_isActive body)
    /\ user_id (apply_update actor body user) = user_id user).
  { unfold apply_update. rewrite Hadm. cbn [String.eqb].
    destruct (upd_role body), (upd_isActive body); cbn; auto. }
  destruct Hsaved as (Hr & Ha & Hi).
  destruct (instance_changed body user (apply_update actor body user)) eqn:Hch.
  - cbn. split; [reflexivity|]. split.
    + intros v Hv Hvid. apply list_elem_of_In, in_map_iff in Hv
        as (w & Hw & _).
      rewrite Hid in Hw.
      destruct (String.eqb_spec (user_id w) id) as [_|Hne];
        [subst v; auto | congruence].
    + rewrite Hid. clear Hfind Hin Hnd.
      induction (users st) as [|x l IH]; [reflexivity|]. cbn.
      destruct (String.eqb_spec (user_id x) id) as [Hx|Hx]; cbn.
      * rewrite Hi, Hid, String.eqb_refl. cbn. exact IH.
      * apply String.eqb_neq in Hx. rewrite Hx. cbn. f_equal. exact IH.
  - cbn. split; [reflexivity|]. split; [|reflexivity].
    intros v Hv Hvid. apply list_elem_of_In in Hv.
    assert (v = user) as ->
      by (apply (NoDup_map_eq user_id (users st)); [done|done|done|congruence]).
    unfold instance_changed in Hch.
    apply orb_false_iff in Hch as [Hch Hch2].
    apply orb_false_iff in Hch as [_ Hch1].
    apply negb_false_iff in Hch1, Hch2.
    apply String.eqb_eq in Hch1. apply Bool.eqb_prop in Hch2.
    split; congruence.
Qed.

(** * Further runs on the small installation *)

Lemma authenticate_refuses_before_database_witness :
  authenticate Demo.jwt_verify Demo.digest Demo.env_fresh Scenario.empty_bearer
               Demo.st_logged
  = (Ok (Respond 401 "Access token is required"), Demo.st_logged) /\
  exists status message,
    authenticate Demo.jwt_verify Demo.digest Demo.env_fresh Scenario.garbage
                 Demo.st_logged
    = (Ok (Respond status message), Demo.st_logged).
Proof.
  split.
  - destruct (authenticate_refuses_before_database Demo.jwt_verify Demo.digest
                Demo.env_fresh Scenario.empty_bearer Demo.st_logged)
      as (status & message & Hrun & Hmissing & _).
    + intros tok dec Htok. vm_compute in Htok. discriminate.
    + destruct (Hmissing eq_refl) as [-> ->]. exact Hrun.
  - destruct (authenticate_refuses_before_database Demo.jwt_verify Demo.digest
                Demo.env_fresh Scenario.garbage Demo.st_logged)
      as (status & message & Hrun & _).
    + intros tok dec Htok Hdec. vm_compute in Htok. injection Htok as <-.
      vm_compute in Hdec. discriminate.
    + exists status, message. exact Hrun.
Defined.

Lemma authenticate_hands_on_the_token_identity_witness :
  exists u s,
    Scenario.as_alice_session
    = attach Demo.bearer u s /\ user_id u = "u-alice" /\
    sessions (snd (authenticate Demo.jwt_verify Demo.digest Demo.env_same
                                Demo.bearer Demo.st_logged))
    = sessions Demo.st_logged.
Proof.
  destruct (authenticate_hands_on_the_token_identity Demo.jwt_verify
              Demo.digest Demo.env_same Demo.bearer Scenario.as_alice_session
              Demo.st_logged)
    as (tok & dec & s & u & Htok & Hdec & Hreq & _ & _ & _ & _ & Hid & _ & _
        & Hss & _).
  - vm_compute. reflexivity.
  - exists u, s. split; [exact Hreq|]. split; [|exact Hss].
    rewrite Hid. vm_compute in Htok. injection Htok as <-.
    vm_compute in Hdec. injection Hdec as <-. reflexivity.
Defined.

Lemma destroyAllUserSessions_revokes_identity_witness :
  destroyAllUserSessions Demo.env_fresh "u-alice" Demo.st_logged
  = (Ok 1%nat, set_sessions [] (tick Demo.st_logged)) /\
  forall s, s ∈ sessions (set_sessions [] (tick Demo.st_logged)) ->
            sess_userId s <> "u-alice".
Proof.
  assert (Hrun : destroyAllUserSessions Demo.env_fresh "u-alice" Demo.st_logged
                 = (Ok 1%nat, set_sessions [] (tick Demo.st_logged))).
  { vm_compute. reflexivity. }
  split; [exact Hrun|].
  destruct (destroyAllUserSessions_revokes_identity Demo.jwt_verify Demo.digest
              Demo.env_fresh Demo.env_same "u-alice" Demo.st_logged _ _ Hrun)
    as (Hrows & _).
  intros s Hs. apply Hrows in Hs as [_ Hne]. exact Hne.
Defined.

Lemma sweep_is_invisible_to_authenticate_witness :
  cleanExpiredSessions Scenario.env_sweep Demo.st_logged
  = (Ok 1%nat, set_sessions [] (tick Demo.st_logged)) /\
  fst (authenticate Demo.jwt_verify Demo.digest Scenario.env_sweep Demo.bearer
                    (set_sessions [] (tick Demo.st_logged)))
  = fst (authenticate Demo.jwt_verify Demo.digest Scenario.env_sweep
                      Demo.bearer Demo.st_logged).
Proof.
  assert (Hrun : cleanExpiredSessions Scenario.env_sweep Demo.st_logged
                 = (Ok 1%nat, set_sessions [] (tick Demo.st_logged))).
  { vm_compute. reflexivity. }
  split; [exact Hrun|].
  apply (sweep_is_invisible_to_authenticate Demo.jwt_verify Demo.digest
           Scenario.env_sweep Scenario.env_sweep Demo.bearer Demo.st_logged
           _ _ Hrun).
  discriminate.
Defined.

Lemma sweep_again_removes_nothing_witness :
  exists st2,
    cleanExpiredSessions Scenario.env_sweep
                         (set_sessions [] (tick Demo.st_logged))
    = (Ok 0%nat, st2).
Proof.
  destruct (sweep_again_removes_nothing Scenario.env_sweep Scenario.env_sweep
              Demo.st_logged (set_sessions [] (tick Demo.st_logged)) 1%nat)
    as (Hup & _).
  - vm_compute. reflexivity.
  - discriminate.
  - destruct (Hup eq_refl) as (st2 & Hrun & _). exists st2. exact Hrun.
Defined.

Lemma login_invalid_credentials_witness :
  fst (login Demo.jwt_sign Demo.digest Demo.validate Demo.plus_24h Demo.env_login
             (mkBody "alice@example.org" "wrong") Demo.anonymous Demo.st0)
  = Throw (createError "Invalid credentials" 401) /\
  sessions (snd (login Demo.jwt_sign Demo.digest Demo.validate Demo.plus_24h
      Demo.env_login
                       (mkBody "alice@example.org" "wrong") Demo.anonymous
                       Demo.st0))
  = [].
Proof.
  destruct (login_invalid_credentials Demo.jwt_sign Demo.digest Demo.validate Demo.plus_24h
              Demo.env_login (mkBody "alice@example.org" "wrong")
              Demo.anonymous Demo.st0 eq_refl eq_refl)
    as (Hiff & Hclean).
  assert (Hrefused :
    fst (login Demo.jwt_sign Demo.digest Demo.validate Demo.plus_24h Demo.env_login
               (mkBody "alice@example.org" "wrong") Demo.anonymous Demo.st0)
    = Throw (createError "Invalid credentials" 401)).
  { apply Hiff. intros u Hu. vm_compute in Hu. injection Hu as <-.
    vm_compute. reflexivity. }
  split; [exact Hrefused|]. destruct (Hclean Hrefused) as [Hss _]. exact Hss.
Defined.

Lemma register_then_login_witness :
  exists d2 st2,
    login Demo.jwt_sign Demo.digest Demo.validate Demo.plus_24h Scenario.env_later
          (mkBody "carol@example.org" "carol-secret") Demo.anonymous
          Scenario.st_registered
    = (Ok d2, st2) /\
    data_user_id d2 = "u-carol".
Proof.
  destruct (register_then_login Demo.jwt_sign Demo.digest Demo.validate
              Scenario.validate Demo.plus_24h
                  Scenario.env_register Scenario.env_later
              "salt-P" Scenario.carol_body Demo.anonymous Demo.anonymous
              Demo.st0 Scenario.st_registered
              (mkData "u-carol" "carol@example.org" "user" "jwt.u-carol"
                      (3000 + HOURS_24)))
    as (d2 & st2 & Hrun & Hid & _).
  - vm_compute. reflexivity.
  - reflexivity.
  - reflexivity.
  - exists d2, st2. split; [exact Hrun | exact Hid].
Defined.

Lemma register_keeps_emails_and_ids_unique_witness :
  register Demo.jwt_sign Demo.digest Scenario.validate Demo.plus_24h
      Scenario.env_later
           "salt-P" Scenario.carol_body Demo.anonymous Scenario.st_registered
  = (Throw (createError "Email already registered" 409),
     tick Scenario.st_registered) /\
  NoDup (map email (users Scenario.st_registered)).
Proof.
  destruct (register_keeps_emails_and_ids_unique Demo.jwt_sign Demo.digest
              Scenario.validate Demo.plus_24h Scenario.env_later "salt-P"
              Scenario.carol_body Demo.anonymous Scenario.st_registered
              eq_refl eq_refl) as (Htaken & _).
  destruct (register_keeps_emails_and_ids_unique Demo.jwt_sign Demo.digest
              Scenario.validate Demo.plus_24h Scenario.env_register "salt-P"
              Scenario.carol_body Demo.anonymous Demo.st0
              eq_refl eq_refl) as (_ & Hkeeps).
  split.
  - apply Htaken.
    exists (mkUser "u-carol" "carol@example.org"
                   (bcrypt_hash Demo.digest 12 "salt-P" "carol-secret")
                   "user" true None []).
    split; [|reflexivity]. vm_compute. right. right. left.
  - destruct (Hkeeps (mkData "u-carol" "carol@example.org" "user"
                             "jwt.u-carol" (3000 + HOURS_24))
                     Scenario.st_registered) as [_ Hmails].
    + vm_compute. reflexivity.
    + vm_compute. apply NoDup_cons. split.
      * intros Hin. apply list_elem_of_singleton in Hin. discriminate.
      * apply NoDup_singleton.
    + vm_compute. apply NoDup_cons. split.
      * intros Hin. apply list_elem_of_singleton in Hin. discriminate.
      * apply NoDup_singleton.
    + exact Hmails.
Defined.

Lemma changePassword_then_login_witness :
  exists d st2,
    login Demo.jwt_sign Demo.digest Demo.validate Demo.plus_24h Scenario.env_later
          (mkBody "alice@example.org" "new-secret") Demo.anonymous
          (snd (changePassword Demo.digest Demo.env_fresh "salt-Q"
                  (Some "alice-secret") (Some "new-secret") Demo.as_alice
                  Demo.st0))
    = (Ok d, st2) /\
    data_user_id d = "u-alice".
Proof.
  destruct (changePassword_then_login Demo.jwt_sign Demo.digest Demo.validate Demo.plus_24h
              Demo.env_fresh Scenario.env_later "salt-Q" "alice@example.org"
              "new-secret" (Some "alice-secret") Demo.as_alice Demo.anonymous
              Demo.st0
              (snd (changePassword Demo.digest Demo.env_fresh "salt-Q"
                      (Some "alice-secret") (Some "new-secret") Demo.as_alice
                      Demo.st0))
              (Respond 200 "Password changed successfully")
              Demo.alice Demo.alice)
    as (_ & d & st2 & Hrun & Hid).
  - vm_compute. reflexivity.
  - reflexivity.
  - vm_compute. reflexivity.
  - reflexivity.
  - reflexivity.
  - reflexivity.
  - exists d, st2. split; [exact Hrun | exact Hid].
Defined.

Lemma changePassword_refusals_witness :
  changePassword Demo.digest Demo.env_fresh "salt-Q" (Some "alice-secret")
                 (Some "ééééé") Demo.as_alice Demo.st0
  = (Throw (createError "New password must be at least 6 characters long"
                        400), Demo.st0) /\
  changePassword Demo.digest Demo.env_fresh "salt-Q" (Some "guess")
                 (Some "123456") Demo.as_alice Demo.st0
  = (Throw (createError "Current password is incorrect" 400), tick Demo.st0).
Proof.
  destruct (changePassword_refusals Demo.digest Demo.env_fresh "salt-Q"
              (Some "alice-secret") (Some "ééééé") Demo.as_alice Demo.st0
              Demo.alice Demo.alice) as (_ & Hshort & _).
  destruct (changePassword_refusals Demo.digest Demo.env_fresh "salt-Q"
              (Some "guess") (Some "123456") Demo.as_alice Demo.st0
              Demo.alice Demo.alice) as (_ & _ & Hwrong).
  split.
  - apply (Hshort "alice-secret" "ééééé"); try reflexivity;
      vm_compute; lia.
  - apply (Hwrong "guess" "123456"); try reflexivity;
      vm_compute; lia.
Defined.

Lemma demo_ids_unique : NoDup (map user_id (users Demo.st0)).
Proof.
  vm_compute. apply NoDup_cons. split.
  - intros Hin. apply list_elem_of_singleton in Hin. discriminate.
  - apply NoDup_singleton.
Defined.

Lemma toggleUserStatus_twice_witness :
  users (snd (toggleUserStatus Scenario.env_later Demo.as_root "u-alice"
                (snd (toggleUserStatus Demo.env_fresh Demo.as_root "u-alice"
                                       Demo.st0))))
  = users Demo.st0.
Proof.
  destruct (toggleUserStatus_twice Demo.env_fresh Scenario.env_later
              Demo.as_root "u-alice" Demo.st0
              (snd (toggleUserStatus Demo.env_fresh Demo.as_root "u-alice"
                                     Demo.st0))
              (snd (toggleUserStatus Scenario.env_later Demo.as_root "u-alice"
                      (snd (toggleUserStatus Demo.env_fresh Demo.as_root
                                             "u-alice" Demo.st0))))
              (Respond 200 "User deactivated successfully")
              (Respond 200 "User activated successfully")
              demo_ids_unique) as (Hus & _).
  - vm_compute. reflexivity.
  - vm_compute. reflexivity.
  - exact Hus.
Defined.

Lemma acting_identity_is_never_toggled_or_deleted_witness :
  fst (deleteUser Demo.env_fresh Demo.as_root "u-root" Demo.st0)
  = Throw (createError "You cannot delete your own account" 400) /\
  List.filter (fun u => String.eqb (user_id u) "u-root")
              (users (snd (deleteUser Demo.env_fresh Demo.as_root "u-alice"
                                      Demo.st0)))
  = [Demo.root].
Proof.
  split; [vm_compute; reflexivity|].
  destruct (acting_identity_is_never_toggled_or_deleted Demo.env_fresh
              Demo.as_root "u-alice" Demo.st0 Demo.root eq_refl)
    as (_ & Hdelete).
  exact Hdelete.
Defined.

Lemma deleteUser_revokes_identity_witness :
  deleteUser Demo.env_fresh Demo.as_root "u-alice" Demo.st_logged
  = (Ok (Respond 200 "User deleted successfully"),
     snd (deleteUser Demo.env_fresh Demo.as_root "u-alice" Demo.st_logged)) /\
  forall s,
    s ∈ sessions (snd (deleteUser Demo.env_fresh Demo.as_root "u-alice"
                                  Demo.st_logged)) ->
    sess_userId s <> "u-alice".
Proof.
  assert (Hrun :
    deleteUser Demo.env_fresh Demo.as_root "u-alice" Demo.st_logged
    = (Ok (Respond 200 "User deleted successfully"),
       snd (deleteUser Demo.env_fresh Demo.as_root "u-alice" Demo.st_logged))).
  { vm_compute. reflexivity. }
  split; [exact Hrun|].
  destruct (deleteUser_revokes_identity Demo.jwt_verify Demo.digest
              Demo.env_fresh Demo.env_same Demo.as_root "u-alice"
              Demo.st_logged _ _ Hrun) as (_ & Hrows & _).
  intros s Hs. apply Hrows in Hs as [_ Hne]. exact Hne.
Defined.

Lemma updateUser_never_escalates_witness :
  map role (users (snd (updateUser Demo.env_fresh Demo.as_alice "u-alice"
                          (mkUpdate true (Some "admin") (Some true))
                          Demo.st0)))
  = ["moderator"; "admin"] /\
  fst (updateUser Demo.env_fresh Demo.as_alice "u-root"
                  (mkUpdate false None (Some false)) Demo.st0)
  = Throw (createError "Access denied" 403).
Proof.
  split.
  - destruct (updateUser_never_escalates Demo.env_fresh Demo.as_alice
                "u-alice" (mkUpdate true (Some "admin") (Some true)) Demo.st0
                Demo.alice eq_refl) as (Hsame & _).
    + discriminate.
    + exact demo_ids_unique.
    + apply (f_equal (map (fun t => snd (fst t)))) in Hsame.
      rewrite !map_map in Hsame. exact Hsame.
  - destruct (updateUser_never_escalates Demo.env_fresh Demo.as_alice
                "u-root" (mkUpdate false None (Some false)) Demo.st0
                Demo.alice eq_refl) as (_ & _ & Hdenied).
    + discriminate.
    + exact demo_ids_unique.
    + apply Hdenied; [reflexivity | discriminate|].
      exists Demo.root. split; [|reflexivity]. right. left.
Defined.

Lemma changeUserPassword_then_login_witness :
  exists d st2,
    login Demo.jwt_sign Demo.digest Demo.validate Demo.plus_24h Scenario.env_later
          (mkBody "alice@example.org" "reset-secret") Demo.anonymous
          (snd (changeUserPassword Demo.digest Demo.env_fresh "salt-Q"
                  "u-alice" (Some "reset-secret") Demo.st0))
    = (Ok d, st2) /\
    data_user_id d = "u-alice".
Proof.
  destruct (changeUserPassword_then_login Demo.jwt_sign Demo.digest
              Demo.validate Demo.plus_24h Demo.env_fresh Scenario.env_later "salt-Q"
              "alice@example.org" "reset-secret" Demo.anonymous Demo.st0
              (snd (changeUserPassword Demo.digest Demo.env_fresh "salt-Q"
                      "u-alice" (Some "reset-secret") Demo.st0))
              (Respond 200 "Password changed successfully") Demo.alice)
    as (_ & _ & d & st2 & Hrun & Hid).
  - vm_compute. reflexivity.
  - vm_compute. reflexivity.
  - reflexivity.
  - reflexivity.
  - exists d, st2. split; [exact Hrun | exact Hid].
Defined.

Lemma hasPermission_agrees_with_authorize_witness :
  fst (hasPermission Demo.env_fresh "u-alice" "routes" "update" Demo.st0)
  = Ok true /\
  fst (authorize [ReqObject (Some "routes") (Some "update")] Demo.env_fresh
                 Demo.as_alice Demo.st0)
  = Ok (Next Demo.as_alice).
Proof.
  assert (Hyes :
    fst (hasPermission Demo.env_fresh "u-alice" "routes" "update" Demo.st0)
    = Ok true) by (vm_compute; reflexivity).
  split; [exact Hyes|].
  destruct (hasPermission_agrees_with_authorize Demo.env_fresh Demo.as_alice
              Demo.st0 Demo.alice "routes" "update" eq_refl)
    as (_ & Hiff & _).
  apply Hiff; [discriminate | exact Hyes].
Defined.

Lemma clearPermissionsCache_forgets_witness :
  permissionsCache Scenario.st_cached !! cacheKey "u-alice"
  = Some (mkEntry [Demo.routes_read; Demo.routes_update] 1000) /\
  permissionsCache (snd (clearPermissionsCache (Some "u-alice")
                                               Scenario.st_cached))
    !! cacheKey "u-alice"
  = None.
Proof.
  split; [vm_compute; reflexivity|].
  destruct (clearPermissionsCache_forgets Demo.env_fresh "u-alice"
              Scenario.st_cached) as (Hgone & _).
  - discriminate.
  - exact Hgone.
Defined.

Lemma cached_grants_outlive_the_store_witness :
  authorize [ReqString "routes.update"] Demo.env_fresh Demo.as_alice
            (set_users [] Scenario.st_cached)
  = (Ok (Next Demo.as_alice), set_users [] Scenario.st_cached).
Proof.
  apply (cached_grants_outlive_the_store [ReqString "routes.update"]
           Demo.env_fresh Demo.as_alice Scenario.st_cached Demo.alice
           (mkEntry [Demo.routes_read; Demo.routes_update] 1000) []).
  - reflexivity.
  - discriminate.
  - vm_compute. reflexivity.
  - reflexivity.
  - intros r Hr. apply list_elem_of_singleton in Hr. subst r.
    exists Demo.routes_update. split; [right; left | reflexivity].
Defined.

Lemma getUserPermissions_touches_one_entry_witness :
  permissionsCache (snd (getUserPermissions Demo.env_fresh "u-root"
                                            Scenario.st_cached))
    !! cacheKey "u-alice"
  = permissionsCache Scenario.st_cached !! cacheKey "u-alice" /\
  permissionsCache (snd (getUserPermissions Demo.env_down "u-root"
                                            Scenario.st_cached))
  = permissionsCache Scenario.st_cached.
Proof.
  split.
  - destruct (getUserPermissions_touches_one_entry Demo.env_fresh "u-root"
                Scenario.st_cached) as (Hother & _).
    apply Hother. discriminate.
  - destruct (getUserPermissions_touches_one_entry Demo.env_down "u-root"
                Scenario.st_cached) as (_ & Hnone).
    apply Hnone. left. reflexivity.
Defined.

Lemma admin_route_is_the_role_gate_witness :
  admin_route [ReqString "users.delete"] Demo.env_down Demo.as_root Demo.st0
  = (Ok (Next Demo.as_root), Demo.st0) /\
  fst (admin_route [] Demo.env_fresh Demo.as_alice Demo.st0)
  = Ok (Respond 403 "Insufficient role permissions").
Proof.
  split.
  - destruct (admin_route_is_the_role_gate [ReqString "users.delete"]
                Demo.env_down Demo.as_root Demo.st0 Demo.root eq_refl)
      as (Hiff & _ & Hst).
    apply injective_projections; cbn [fst snd]; [|exact Hst].
    apply Hiff. reflexivity.
  - destruct (admin_route_is_the_role_gate [] Demo.env_fresh Demo.as_alice
                Demo.st0 Demo.alice eq_refl) as (_ & Hdeny & _).
    apply Hdeny. discriminate.
Defined.

Lemma requireAny_stops_at_a_guard_witness :
  fst (requireOwnership (fun _ => ret (JsString "u-alice")) Demo.as_alice
                        Demo.st0) = Ok (Next Demo.as_alice) /\
  fst (requireAny
         [sync_guard (requireRole (RoleSingle "admin"));
          async_guard (requireOwnership (fun _ => ret (JsString "u-alice")))]
         Demo.as_alice Demo.st0)
  = AnyAnswered 403 "Insufficient role permissions".
Proof.
  split; [reflexivity|].
  destruct (requireAny_stops_at_a_guard
              (sync_guard (requireRole (RoleSingle "admin"))) []
              [async_guard (requireOwnership
                              (fun _ => ret (JsString "u-alice")))]
              [] None Demo.as_alice Demo.st0
              (sync_guard_never_fails _)) as (_ & Hanswer).
  apply Hanswer. reflexivity.
Defined.

Lemma bearer_prefix_is_optional_witness :
  fst (authenticate Demo.jwt_verify Demo.digest Demo.env_same
         (mkRequest (Some Demo.token) "10.0.0.1" "curl" None None)
         Demo.st_logged)
  = Ok (Next (attach (mkRequest (Some Demo.token) "10.0.0.1" "curl" None None)
                     (touch_lastLogin 1000 Demo.alice) Demo.session1)).
Proof.
  destruct (bearer_prefix_is_optional Demo.jwt_verify Demo.digest
              Demo.env_same Demo.st_logged Demo.token "10.0.0.1" "curl")
    as (_ & _ & Hsame).
  - vm_compute. reflexivity.
  - apply Hsame. vm_compute. reflexivity.
Defined.

Lemma deactivated_identity_cannot_login_witness :
  login Demo.jwt_sign Demo.digest Demo.validate Demo.plus_24h
      Scenario.env_later Demo.body
        Demo.anonymous Demo.st_deactivated
  = (Throw (createError "Invalid credentials" 401),
     tick Demo.st_deactivated).
Proof.
  destruct (deactivated_identity_cannot_login Demo.jwt_sign Demo.digest
              Demo.validate Demo.plus_24h
                  Demo.env_fresh Scenario.env_later Demo.as_root
              Demo.anonymous "u-alice" Demo.st_logged Demo.st_deactivated
              (Respond 200 "User deactivated successfully")
              (touch_lastLogin 1000 Demo.alice) Demo.body)
    as (Hrefused & _).
  - vm_compute. reflexivity.
  - vm_compute. reflexivity.
  - reflexivity.
  - intros v Hv Hmail. vm_compute in Hv.
    apply elem_of_cons in Hv as [->|Hv]; [reflexivity|].
    apply list_elem_of_singleton in Hv. subst v. discriminate.
  - reflexivity.
  - reflexivity.
  - exact Hrefused.
Defined.


Lemma updateUser_by_admin_applies_witness :
  fst (updateUser Demo.env_fresh Demo.as_root "u-root"
                  (mkUpdate false None (Some false)) Demo.st0)
  = Ok (Respond 200 "User updated successfully") /\
  forall v,
    v ∈ users (snd (updateUser Demo.env_fresh Demo.as_root "u-root"
                               (mkUpdate false None (Some false)) Demo.st0)) ->
    user_id v = "u-root" -> isActive v = false.
Proof.
  destruct (updateUser_by_admin_applies Demo.env_fresh Demo.as_root "u-root"
              (mkUpdate false None (Some false)) Demo.st0 Demo.root Demo.root
              eq_refl eq_refl eq_refl demo_ids_unique)
    as (Hok & Hrow & _).
  - vm_compute. reflexivity.
  - split; [exact Hok|]. intros v Hv Hid.
    destruct (Hrow v Hv Hid) as [_ Hact]. exact Hact.
Defined.
